(** * eric-py: the version registry and the session facade

    A shallow embedding of [eric/versioning.py], [eric/loader.py] and
    [eric/facade.py].  Python values are modelled as follows:

    - [str] is a list of Unicode code points ([list N]);
    - [bytes] is a list of [Byte.byte];
    - [Optional[T]] is [option T];
    - [dict] (the environment, [VERSION_CONFIGS]) is a [gmap];
    - exceptions are values of [exn], carried by [outcome]; the calls
      into the platform that the source makes outside any [try]
      ([expanduser().resolve()], [exists()], [mkdir()], [print()]) raise
      where a [Faults] record says so;
    - calls into the native engine are answered by an [Engine] record of
      transition functions over an abstract engine state, and every call
      is recorded in a trace of [event]s. *)

From Stdlib Require Import ZArith NArith List Lia.
From Stdlib.Strings Require Import Ascii String Byte.
From stdpp Require Import base option list gmap.
From Equations Require Import Equations.
From Equations.Prop Require Import Logic.
Import ListNotations.

Set Default Proof Using "Type".

(* ===================================================================== *)
(** * Python strings *)
(* ===================================================================== *)

Module Py.

(** A [str] is a sequence of code points. *)
Abbreviation str := (list N) (only parsing).
Abbreviation bytes := (list byte) (only parsing).

(** A string literal of the source, as code points. *)
Definition lit (s : string) : str :=
  List.map N_of_ascii (list_ascii_of_string s).
Arguments lit s%_string.

(** The parts of the interpreter's Unicode machinery that the source
    relies on and that are tables of the runtime, not code of the
    repository. *)
Record Runtime := {
  (** decimal digits (category Nd) among the code points >= 128 *)
  unicode_decimal : N -> bool;
  (** [str.lower] on a string that is not pure ASCII *)
  unicode_lower : str -> str;
  (** [bytes.decode("utf-8", errors="replace")] *)
  utf8_decode_replace : bytes -> str;
}.

Definition is_ascii (c : N) : bool := (c <? 128)%N.

Definition ascii_lower (c : N) : N :=
  if (65 <=? c)%N && (c <=? 90)%N then (c + 32)%N else c.

(** [s.lower()] *)
Definition lower (rt : Runtime) (s : str) : str :=
  if forallb is_ascii s then List.map ascii_lower s else unicode_lower rt s.

(** What [\d] matches in a [str] pattern: 0-9 and the other decimals. *)
Definition is_digit (rt : Runtime) (c : N) : bool :=
  ((48 <=? c)%N && (c <=? 57)%N) || (negb (is_ascii c) && unicode_decimal rt c).

(** Truth value of an [Optional[str]]: [None] and the empty string are
    false. *)
Definition truthy (o : option str) : bool :=
  match o with
  | Some (_ :: _) => true
  | _ => false
  end.

(** [a or b] where [b] is a [str]. *)
Definition or_str (a : option str) (b : str) : str :=
  match a with
  | Some (c :: s) => c :: s
  | _ => b
  end.

(** [a or b] where [b] is itself optional. *)
Definition or_opt {A} (is_true : A -> bool) (a b : option A) : option A :=
  match a with
  | Some x => if is_true x then Some x else b
  | None => b
  end.

Definition byte_of_N (n : N) : byte := byte_of_ascii (ascii_of_N n).

(** UTF-8 bytes of one code point; surrogates cannot be encoded. *)
Definition utf8_encode_char (c : N) : option bytes :=
  if (c <? 128)%N then Some [byte_of_N c]
  else if (c <? 2048)%N then
    Some [byte_of_N (192 + c / 64); byte_of_N (128 + c mod 64)]
  else if (55296 <=? c)%N && (c <=? 57343)%N then None
  else if (c <? 65536)%N then
    Some [byte_of_N (224 + c / 4096); byte_of_N (128 + (c / 64) mod 64);
          byte_of_N (128 + c mod 64)]
  else if (c <? 1114112)%N then
    Some [byte_of_N (240 + c / 262144); byte_of_N (128 + (c / 4096) mod 64);
          byte_of_N (128 + (c / 64) mod 64); byte_of_N (128 + c mod 64)]
  else None.

(** [s.encode("utf-8")]; [None] stands for [UnicodeEncodeError]. *)
Fixpoint utf8_encode (s : str) : option bytes :=
  match s with
  | [] => Some []
  | c :: s' =>
      match utf8_encode_char c, utf8_encode s' with
      | Some b, Some bs => Some (b ++ bs)
      | _, _ => None
      end
  end.

(** [sep.join(l)] *)
Fixpoint join (sep : str) (l : list str) : str :=
  match l with
  | [] => []
  | [x] => x
  | x :: l' => x ++ sep ++ join sep l'
  end.

(** [s.split(sep)] for a one-character separator. *)
Fixpoint split_on (sep : N) (s : str) : list str :=
  match s with
  | [] => [[]]
  | c :: s' =>
      if (c =? sep)%N then [] :: split_on sep s'
      else match split_on sep s' with
           | h :: t => (c :: h) :: t
           | [] => [[c]]
           end
  end.

End Py.

Import Py.

(* ===================================================================== *)
(** * Exceptions *)
(* ===================================================================== *)

Inductive exn :=
| EricLibraryLoadError (msg : str)
| EricError (code : Z) (message : option str)
| TypeError
| KeyError
| UnicodeEncodeError
| RuntimeError
| OSError
| ForeignError (tag : N).
(* [ForeignError] stands for whatever a call wrapper of [eric.api] raises
   on its own account (a ctypes argument error, a library that fails to
   load on first use).  [OSError] stands for its subclasses as well
   ([FileExistsError], [PermissionError], ...). *)

Inductive outcome (A : Type) :=
| Ok (a : A)
| Raise (e : exn).
Arguments Ok {A} a.
Arguments Raise {A} e.

(* ===================================================================== *)
(** * pathlib: pure POSIX paths *)
(* ===================================================================== *)

Module Pathlib.

Definition slash : N := 47.

(** A path is its anchor (empty, one slash, or two slashes) and the
    names below it, outermost first. *)
Record Path := mkPath { root : str; parts : list str }.

#[global] Instance Path_eq_dec : EqDecision Path.
Proof. solve_decision. Defined.

(** [p.name]: the final component, empty when there is none. *)
Definition name (p : Path) : str := List.last (parts p) [].

(** [p.parent]: the anchor and the current directory are their own
    parents. *)
Definition parent (p : Path) : Path := mkPath (root p) (removelast (parts p)).

Definition parse_root (s : str) : str :=
  match s with
  | a :: b :: c :: _ =>
      if (a =? slash)%N then
        if (b =? slash)%N then
          if (c =? slash)%N then [slash] else [slash; slash]
        else [slash]
      else []
  | [a; b] =>
      if (a =? slash)%N then
        if (b =? slash)%N then [slash; slash] else [slash]
      else []
  | [a] => if (a =? slash)%N then [slash] else []
  | [] => []
  end.

Definition is_component (c : str) : bool :=
  negb (bool_decide (c = [])) && negb (bool_decide (c = lit ".")).

(** [Path(s)] *)
Definition Path_of_str (s : str) : Path :=
  mkPath (parse_root s) (List.filter is_component (split_on slash s)).

(** [str(p)] *)
Definition Path_str (p : Path) : str :=
  match parts p, root p with
  | [], [] => lit "."
  | ps, r => r ++ join [slash] ps
  end.

(** The file system, as far as the source consults it. *)
Record FileSystem := {
  (** what [p.expanduser().resolve()] returns *)
  resolve : Path -> Path;
  (** [Path.cwd()] *)
  cwd : Path;
}.

(** An argument of type [os.PathLike[str] | str]. *)
Inductive PathArg :=
| AsStr (s : str)
| AsPath (p : Path).

(** Truth value of such an argument: only the empty [str] is false. *)
Definition arg_truthy (a : PathArg) : bool :=
  match a with
  | AsStr [] => false
  | _ => true
  end.

(** [Path(a)] *)
Definition Path_of (a : PathArg) : Path :=
  match a with
  | AsStr s => Path_of_str s
  | AsPath p => p
  end.

End Pathlib.

Import Pathlib.

(* ===================================================================== *)
(** * Where the platform raises *)
(* ===================================================================== *)

(** The calls into the operating system and the interpreter that the
    source makes outside any [try]: for each, when it raises instead of
    returning, and what. *)
Record Faults := {
  (** [p.expanduser().resolve()]: an unknown [~user], a loop of links *)
  resolve_fault : Path -> option exn;
  (** [p.exists()]: a name that is too long, a directory that may not be
      searched *)
  exists_fault : Path -> option exn;
  (** [p.mkdir(parents=True, exist_ok=True)]: a file in the way, no
      permission *)
  mkdir_fault : Path -> option exn;
  (** [print(line)]: a text that standard output cannot encode, a closed
      pipe *)
  print_fault : str -> option exn;
}.

(* ===================================================================== *)
(** * eric/versioning.py *)
(* ===================================================================== *)

Module Versioning.

Record EricVersionConfig := {
  eric_version : str;
  druck_param_version : Z;
  crypto_param_version : Z;
}.

Definition SUPPORTED_ERIC_VERSIONS : list str := [lit "41.6.2.0"].

(** [SUPPORTED_ERIC_VERSIONS[0]] *)
Definition DEFAULT_ERIC_VERSION : str := List.hd [] SUPPORTED_ERIC_VERSIONS.

Definition VERSION_CONFIGS : gmap (list N) EricVersionConfig :=
  {[ lit "41.6.2.0" :=
       {| eric_version := lit "41.6.2.0";
          druck_param_version := 4;
          crypto_param_version := 3 |} ]}.

Definition is_supported_version (version : str) : bool :=
  bool_decide (version ∈ SUPPORTED_ERIC_VERSIONS).

Definition list_supported_versions : list str := SUPPORTED_ERIC_VERSIONS.

(** ** The regular expression of [detect_eric_version] *)

(** The pattern is a sequence of two kinds of item. *)
Inductive item :=
| Digits            (* \d+ *)
| Lit (c : N).      (* an escaped literal character *)

Definition dot : N := 46.

(** [(\d+\.\d+\.\d+\.\d+)]; the group is the whole match. *)
Definition pattern : list item :=
  [Digits; Lit dot; Digits; Lit dot; Digits; Lit dot; Digits].

Section Regex.
Context (rt : Runtime).

(** Greedy [\d+] with backtracking: take one digit, prefer to take
    more, and fall back to the rest of the pattern [k]. *)
Fixpoint match_digits (k : str -> option str) (s : str) : option str :=
  match s with
  | c :: s' =>
      if is_digit rt c then
        match match_digits k s' with
        | Some m => Some (c :: m)
        | None => cons c <$> k s'
        end
      else None
  | [] => None
  end.

(** Match the pattern at the start of [s]; the result is the text
    matched. *)
Fixpoint match_here (p : list item) (s : str) : option str :=
  match p with
  | [] => Some []
  | Lit c :: p' =>
      match s with
      | x :: s' => if (x =? c)%N then cons x <$> match_here p' s' else None
      | [] => None
      end
  | Digits :: p' => match_digits (match_here p') s
  end.

(** [pattern.search(s)]: the first start position that matches. *)
Fixpoint search (p : list item) (s : str) : option str :=
  match match_here p s with
  | Some m => Some m
  | None =>
      match s with
      | [] => None
      | _ :: s' => search p s'
      end
  end.

End Regex.

(** ** [detect_eric_version] *)

Section Detect.
Context (rt : Runtime) (fs : FileSystem).

(** The [while] loop: [current] climbs to its parent until it is its
    own parent. *)
Equations? detect_loop (current : Path) : option str
  by wf (length (parts current)) lt :=
  detect_loop current with inspect (bool_decide (current ≠ parent current)) := {
    | exist _ false _ := None;
    | exist _ true Hne with search rt pattern (name current) := {
        | Some m := Some m;
        | None := detect_loop (parent current) } }.
Proof.
  apply bool_decide_eq_true in Hne.
  destruct current as [r ps]; unfold parent in *; simpl in *.
  destruct (exists_last (l := ps)) as (ps' & x & ->).
  - intros ->. apply Hne. reflexivity.
  - rewrite removelast_last, length_app. simpl. lia.
Qed.

Definition detect_eric_version (eric_home : Path) : option str :=
  let home := resolve fs eric_home in
  detect_loop home.

End Detect.

End Versioning.

Import Versioning.

(* ===================================================================== *)
(** * Effects: state, exceptions and a trace of calls *)
(* ===================================================================== *)

(** [eric/types.py] is not among the sources.  The values of the
    processing flags and the conversion done by the integer type of a
    transfer handle are taken as parameters. *)
Record Types := {
  ERIC_VALIDIERE : Z;
  ERIC_SENDE : Z;
  ERIC_DRUCKE : Z;
  (** [EricTransferHandle(v).value] *)
  EricTransferHandle : Z -> Z;
}.

(** [ctypes.c_uint32(v).value] *)
Definition c_uint32 (v : Z) : Z := (v mod 2 ^ 32)%Z.

Record eric_druck_parameter_t := {
  vorschau : Z;
  ersteSeite : Z;
  duplexDruck : Z;
  pdfName : bytes;
  fussText : option bytes;
  pdfCallbackBenutzerdaten : option Z;
}.

Record eric_verschluesselungs_parameter_t := {
  zertifikatHandle : Z;
  pin : option bytes;
  abrufCode : option bytes;
}.

(** What [EricBearbeiteVorgang] is called with ... *)
Record ProcessCall := {
  call_xml : bytes;
  call_datenart_version : bytes;
  call_flags : Z;
  call_print_params : option eric_druck_parameter_t;
  call_crypto_params : option eric_verschluesselungs_parameter_t;
  (** the cell behind the transfer pointer, [None] for a null pointer *)
  call_transfer : option Z;
}.

(** ... and what the engine does with it: it returns a code, having
    written text to the two buffers and a value to the transfer cell, or
    the call wrapper raises. *)
Inductive ProcessReply :=
| Returned (rc : Z) (validation_text server_text : bytes) (transfer_out : Z)
| Raised (e : exn).

(** The native engine is opaque: a state and one transition per entry
    point. *)
Record Engine := {
  engine_state : Type;
  eng_init : Path -> Path -> engine_state -> Z * engine_state;
  eng_shutdown : engine_state -> Z * engine_state;
  eng_error_text : Z -> engine_state -> option str * engine_state;
  eng_process : ProcessCall -> engine_state -> ProcessReply * engine_state;
  eng_get_certificate :
    bytes -> option bytes -> engine_state -> (Z * Z * Z) * engine_state;
  eng_close_certificate : Z -> engine_state -> Z * engine_state;
}.

(** Everything observable that a computation does, in order. *)
Inductive event :=
| E_print (line : str)
| E_mkdir (p : Path)
| E_init_eric (home log : Path) (rc : Z)
| E_shutdown_eric (rc : Z)
| E_get_error_text (rc : Z) (text : option str)
| E_create_buffer (b : N)
| E_read_buffer (b : N) (data : bytes)
| E_free_buffer (b : N)
| E_EricBearbeiteVorgang (call : ProcessCall) (response server : N)
    (reply : ProcessReply)
| E_EricGetHandleToCertificate (path : bytes) (pin : option bytes)
    (rc handle info_pin : Z)
| E_EricCloseHandleToCertificate (handle : Z) (rc : Z).

Module Effects.

Section Monad.
Context {S : Type}.

(** A computation maps a state to an outcome, a state and the events
    it emitted. *)
Definition M (A : Type) : Type := S -> outcome A * S * list event.

Definition ret {A} (a : A) : M A := fun s => (Ok a, s, []).

Definition raise {A} (e : exn) : M A := fun s => (Raise e, s, []).

Definition bind {A B} (m : M A) (k : A -> M B) : M B :=
  fun s =>
    match m s with
    | (Ok a, s1, t1) =>
        match k a s1 with
        | (r, s2, t2) => (r, s2, t1 ++ t2)
        end
    | (Raise e, s1, t1) => (Raise e, s1, t1)
    end.

(** [try: body finally: cleanup].  The cleanup always runs; when it
    raises, its exception replaces the outcome of the body. *)
Definition try_finally {A} (body : M A) (cleanup : M unit) : M A :=
  fun s =>
    match body s with
    | (r, s1, t1) =>
        match cleanup s1 with
        | (Ok _, s2, t2) => (r, s2, t1 ++ t2)
        | (Raise e, s2, t2) => (Raise e, s2, t1 ++ t2)
        end
    end.

Definition emit (e : event) : M unit := fun s => (Ok tt, s, [e]).

Definition get : M S := fun s => (Ok s, s, []).

Definition put (s : S) : M unit := fun _ => (Ok tt, s, []).

Definition lift {A} (o : outcome A) : M A :=
  match o with
  | Ok a => ret a
  | Raise e => raise e
  end.

(** [s.encode("utf-8")] *)
Definition encode (s : str) : M bytes :=
  match utf8_encode s with
  | Some b => ret b
  | None => raise UnicodeEncodeError
  end.

(** [s.encode("utf-8") if s is not None else None] *)
Definition encode_opt (s : option str) : M (option bytes) :=
  match s with
  | Some x => bind (encode x) (fun b => ret (Some b))
  | None => ret None
  end.

End Monad.

Arguments M S A : clear implicits.

End Effects.

Import Effects.

Notation "'let!' x ':=' m 'in' k" := (bind m (fun x => k))
  (at level 10, x pattern, m at level 100, k at level 200).
Notation "'do!' m 'in' k" := (bind m (fun _ => k))
  (at level 10, m at level 100, k at level 200).

(* ===================================================================== *)
(** * eric/loader.py *)
(* ===================================================================== *)

Module Loader.

Section Loader.
Context (env : gmap (list N) (list N)) (fs : FileSystem) (faults : Faults).

(** [p.expanduser().resolve()] *)
Definition resolved (p : Path) : outcome Path :=
  match resolve_fault faults p with
  | Some e => Raise e
  | None => Ok (resolve fs p)
  end.

Definition no_home_message : str :=
  lit "ERIC_HOME is not set and no eric_home override was provided. "
  ++ lit "Install the official ERiC distribution separately and point "
  ++ lit "ERIC_HOME to its root directory (e.g. /opt/eric/Linux-x86_64).".

Definition _resolve_home (eric_home : option PathArg) : outcome Path :=
  let env_home := env !! lit "ERIC_HOME" in
  match eric_home, env_home with
  | None, None => Raise (EricLibraryLoadError no_home_message)
  | _, _ =>
      (* Path(eric_home or env_home) *)
      match or_opt arg_truthy eric_home (AsStr <$> env_home) with
      | Some a => resolved (Path_of a)
      | None => Raise TypeError
      end
  end.

Definition eric_plugin_path (eric_home : option PathArg) : outcome Path :=
  _resolve_home eric_home.

End Loader.

End Loader.

Import Loader.

(* ===================================================================== *)
(** * The session object and the world it runs in *)
(* ===================================================================== *)

(** [EricResult] of [eric/facade.py]. *)
Record EricResult := {
  code : Z;
  validation_response : str;
  server_response : str;
  transfer_handle : option Z;
}.

(** The attributes of an [EricClient]. *)
Record EricClient := {
  eric_home : Path;
  log_dir : Path;
  _initialized : bool;
  detected_eric_version : option str;
  version_config : EricVersionConfig;
}.

Definition set_initialized (c : EricClient) (b : bool) : EricClient :=
  {| eric_home := eric_home c;
     log_dir := log_dir c;
     _initialized := b;
     detected_eric_version := detected_eric_version c;
     version_config := version_config c |}.

(** The state the methods of a session act on: the session object, the
    engine, and the engine buffers that are currently allocated. *)
Record World (E : Engine) := {
  self : EricClient;
  eng : engine_state E;
  buffers : gmap N (list byte);
  next_buffer : N;
}.
Arguments self {E} w.
Arguments eng {E} w.
Arguments buffers {E} w.
Arguments next_buffer {E} w.

(* ===================================================================== *)
(** * eric/errors.py and eric/api.py *)
(* ===================================================================== *)

Module Errors.

(** Modelled from the spec: [eric/errors.py] is not among the sources.
    Section 4.3: "check(code, message) -> ok | fails with
    EngineError{code, message}.  A designated success code (value 0) is
    the only code that does not raise.  All non-zero codes raise
    uniformly."  [tests/test_errors.py] exercises exactly this. *)
Definition check_eric_result {S} (code : Z) (message : option str) : M S unit :=
  if (code =? 0)%Z then ret tt else raise (EricError code message).

End Errors.

Import Errors.

Module Api.

Section Api.
Context (E : Engine).

Definition with_engine {A}
    (f : engine_state E -> A * engine_state E) : M (World E) A :=
  fun w =>
    match f (eng w) with
    | (a, s') =>
        (Ok a,
         {| self := self w; eng := s'; buffers := buffers w;
            next_buffer := next_buffer w |},
         [])
    end.

Definition set_buffers (bs : gmap N (list byte)) (nb : N) : M (World E) unit :=
  fun w =>
    (Ok tt,
     {| self := self w; eng := eng w; buffers := bs; next_buffer := nb |},
     []).

(** Modelled from the spec: [eric/api.py] is not among the sources.
    Section 4.4: "init(home, log_dir) -> code". *)
Definition init_eric (home log : Path) : M (World E) Z :=
  let! rc := with_engine (eng_init E home log) in
  do! emit (E_init_eric home log rc) in
  ret rc.

(** Modelled from the spec: section 4.4, "shutdown() -> code". *)
Definition shutdown_eric : M (World E) Z :=
  let! rc := with_engine (eng_shutdown E) in
  do! emit (E_shutdown_eric rc) in
  ret rc.

(** Modelled from the spec: section 4.4, "get_error_text(code) ->
    optional text", obtained from the engine. *)
Definition get_error_text (rc : Z) : M (World E) (option str) :=
  let! text := with_engine (eng_error_text E rc) in
  do! emit (E_get_error_text rc text) in
  ret text.

(** Modelled from the spec: section 4.4, "buffer allocate /
    read-as-bytes / free".  A buffer is named by a number; a new one
    is empty. *)
Definition create_buffer : M (World E) N :=
  let! w := get in
  let b := next_buffer w in
  do! set_buffers (<[b := []]> (buffers w)) (N.succ b) in
  do! emit (E_create_buffer b) in
  ret b.

Definition read_buffer (b : N) : M (World E) bytes :=
  let! w := get in
  let data := default [] (buffers w !! b) in
  do! emit (E_read_buffer b data) in
  ret data.

Definition free_buffer (b : N) : M (World E) unit :=
  let! w := get in
  do! set_buffers (delete b (buffers w)) (next_buffer w) in
  emit (E_free_buffer b).

(** Modelled from the spec: section 4.4, "process_transaction(xml,
    data_kind_version, flags, print_params?, crypto_params?,
    transfer_handle?, out response_buffer, out server_buffer) ->
    code".  The engine appends its output to the two buffers and
    stores a value in the transfer cell; the result is the code and
    the content of the cell afterwards. *)
Definition EricBearbeiteVorgang (call : ProcessCall) (response server : N)
  : M (World E) (Z * option Z) :=
  let! reply := with_engine (eng_process E call) in
  do! emit (E_EricBearbeiteVorgang call response server reply) in
  match reply with
  | Returned rc vtext stext tout =>
      let! w := get in
      let bs := alter (fun old => old ++ vtext) response (buffers w) in
      let bs := alter (fun old => old ++ stext) server bs in
      do! set_buffers bs (next_buffer w) in
      ret (rc, (fun _ => tout) <$> call_transfer call)
  | Raised e => raise e
  end.

(** Modelled from the spec: the entry point behind section 4.4's
    "get_certificate_handle(cert_path, pin)".  It returns a code and
    stores the handle and the PIN information in the two cells passed
    by reference. *)
Definition EricGetHandleToCertificate (path : bytes) (pin : option bytes)
  : M (World E) (Z * Z * Z) :=
  let! r := with_engine (eng_get_certificate E path pin) in
  match r with
  | (rc, handle, info_pin) =>
      do! emit (E_EricGetHandleToCertificate path pin rc handle info_pin) in
      ret (rc, handle, info_pin)
  end.

(** Modelled from the spec: section 4.4, "release_certificate_handle
    (handle) -> void (must not raise; best-effort)".  The code the
    engine returns is the result of the call. *)
Definition EricCloseHandleToCertificate (handle : Z) : M (World E) Z :=
  let! rc := with_engine (eng_close_certificate E handle) in
  do! emit (E_EricCloseHandleToCertificate handle rc) in
  ret rc.

End Api.

End Api.

(* ===================================================================== *)
(** * eric/facade.py *)
(* ===================================================================== *)

Module Facade.

(** ** [EricClient.__init__] *)

Section Init.
Context (rt : Runtime) (fs : FileSystem) (env : gmap (list N) (list N))
  (faults : Faults).

(** [os.environ.get("ERIC_VERSION_POLICY", "warn").lower()] *)
Definition policy : str :=
  lower rt (default (lit "warn") (env !! lit "ERIC_VERSION_POLICY")).

(** [os.environ.get("ERIC_EXPECTED_VERSION")] *)
Definition expected_env : option str := env !! lit "ERIC_EXPECTED_VERSION".

(** [print(line)]: the line is written, or [print] raises and nothing is
    written. *)
Definition print (line : str) : M unit unit :=
  match print_fault faults line with
  | Some e => raise e
  | None => emit (E_print line)
  end.

(** The closure [_handle_mismatch]. *)
Definition _handle_mismatch (msg : str) : M unit unit :=
  if bool_decide (policy = lit "strict") then raise (EricLibraryLoadError msg)
  else if bool_decide (policy = lit "warn") then
    print (lit "[eric-py] WARNING: " ++ msg)
  else ret tt.

(** [eric_version or detected_version or DEFAULT_ERIC_VERSION] *)
Definition version_key (eric_version detected_version : option str) : str :=
  or_str eric_version (or_str detected_version DEFAULT_ERIC_VERSION).

(** The three f-strings. *)
Definition expected_message (key expected : str) : str :=
  lit "Configured ERiC version '" ++ key ++ lit "' does not match "
  ++ lit "ERIC_EXPECTED_VERSION='" ++ expected ++ lit "'.".

Definition detected_message (detected : str) (home : Path) (key : str) : str :=
  lit "Auto-detected ERiC version '" ++ detected ++ lit "' from "
  ++ lit "path " ++ Path_str home ++ lit " differs from configured '"
  ++ key ++ lit "'.".

(** [repr] of a [str] without quotes or escapes, and of a tuple. *)
Definition repr_str (s : str) : str := lit "'" ++ s ++ lit "'".

Definition repr_tuple (l : list str) : str :=
  match l with
  | [x] => lit "(" ++ repr_str x ++ lit ",)"
  | _ => lit "(" ++ join (lit ", ") (List.map repr_str l) ++ lit ")"
  end.

Definition unsupported_message (key : str) : str :=
  lit "ERiC version '" ++ key ++ lit "' is not in supported set "
  ++ repr_tuple SUPPORTED_ERIC_VERSIONS ++ lit ".".

(** The three conditions under which [_handle_mismatch] is called. *)
Definition expected_mismatch (key : str) : bool :=
  match expected_env with
  | Some (c :: x) => negb (bool_decide (key = c :: x))
  | _ => false
  end.

Definition detected_mismatch (detected : option str) (key : str) : bool :=
  match detected with
  | Some (c :: d) => negb (bool_decide (c :: d = key))
  | _ => false
  end.

Definition unsupported (key : str) : bool :=
  negb (bool_decide (key ∈ SUPPORTED_ERIC_VERSIONS)).

(** [VERSION_CONFIGS.get(key, VERSION_CONFIGS[DEFAULT_ERIC_VERSION])] *)
Definition lookup_config (key : str) : M unit EricVersionConfig :=
  match VERSION_CONFIGS !! DEFAULT_ERIC_VERSION with
  | Some fallback => ret (default fallback (VERSION_CONFIGS !! key))
  | None => raise KeyError
  end.

(** [Path(eric_home) if eric_home else eric_plugin_path()] *)
Definition home_of (eric_home : option PathArg) : outcome Path :=
  match eric_home with
  | Some a => if arg_truthy a then Ok (Path_of a)
              else eric_plugin_path env fs faults None
  | None => eric_plugin_path env fs faults None
  end.

(** [Path(log_dir) if log_dir else Path.cwd()] *)
Definition log_of (log_dir : option PathArg) : Path :=
  match log_dir with
  | Some a => if arg_truthy a then Path_of a else cwd fs
  | None => cwd fs
  end.

Definition __init__ (eric_home log_dir : option PathArg)
    (eric_version : option str) : M unit EricClient :=
  let! home := lift (home_of eric_home) in
  let log := log_of log_dir in
  let detected_version := detect_eric_version rt fs home in
  let key := version_key eric_version detected_version in
  do! (if expected_mismatch key
       then _handle_mismatch (expected_message key (default [] expected_env))
       else ret tt) in
  do! (if detected_mismatch detected_version key
       then _handle_mismatch
              (detected_message (default [] detected_version) home key)
       else ret tt) in
  do! (if unsupported key
       then _handle_mismatch (unsupported_message key)
       else ret tt) in
  let! config := lookup_config key in
  ret {| eric_home := home;
         log_dir := log;
         _initialized := false;
         detected_eric_version := detected_version;
         version_config := config |}.

End Init.

(** ** The methods *)

Section Methods.
Context (rt : Runtime) (ty : Types) (E : Engine) (faults : Faults).

Definition set_self (c : EricClient) : M (World E) unit :=
  fun w =>
    (Ok tt,
     {| self := c; eng := eng w; buffers := buffers w;
        next_buffer := next_buffer w |},
     []).

(** [p.mkdir(parents=True, exist_ok=True)] *)
Definition mkdir (p : Path) : M (World E) unit :=
  match mkdir_fault faults p with
  | Some e => raise e
  | None => emit (E_mkdir p)
  end.

Definition initialize : M (World E) unit :=
  let! w := get in
  do! mkdir (log_dir (self w)) in
  let! rc := Api.init_eric E (eric_home (self w)) (log_dir (self w)) in
  let! text := Api.get_error_text E rc in
  do! check_eric_result rc text in
  let! w := get in
  set_self (set_initialized (self w) true).

Definition close : M (World E) unit :=
  let! w := get in
  if negb (_initialized (self w)) then ret tt
  else
    let! rc := Api.shutdown_eric E in
    let! text := Api.get_error_text E rc in
    do! check_eric_result rc text in
    let! w := get in
    set_self (set_initialized (self w) false).

Definition __enter__ : M (World E) unit := initialize.

Definition __exit__ : M (World E) unit := close.

Definition _build_print_params (pdf_path : option Path) (preview : bool)
  : M (World E) (option eric_druck_parameter_t) :=
  match pdf_path with
  | None => ret None
  | Some p =>
      let! pdf_name := encode (Path_str p) in
      ret (Some {| vorschau := if preview then 1 else 0;
                   ersteSeite := 0;
                   duplexDruck := 0;
                   pdfName := pdf_name;
                   fussText := None;
                   pdfCallbackBenutzerdaten := None |})
  end.

Definition _build_crypto_params (cert_handle : Z) (pin : option str)
  : M (World E) eric_verschluesselungs_parameter_t :=
  let! pin_bytes := encode_opt pin in
  ret {| zertifikatHandle := cert_handle;
         pin := pin_bytes;
         abrufCode := None |}.

Definition _process (xml_text datenart_version : str) (flags : Z)
    (print_params : option eric_druck_parameter_t)
    (crypto_params : option eric_verschluesselungs_parameter_t)
    (transfer_handle : option Z) : M (World E) EricResult :=
  let! xml_bytes := encode xml_text in
  let! dav_bytes := encode datenart_version in
  let! response_buffer := Api.create_buffer E in
  let! server_buffer := Api.create_buffer E in
  let transfer_holder :=
    (fun h => EricTransferHandle ty (if (h =? 0)%Z then 0%Z else h))
      <$> transfer_handle in
  let transfer := transfer_holder in
  try_finally
    (let! (rc, transfer_after) :=
       Api.EricBearbeiteVorgang E
         {| call_xml := xml_bytes;
            call_datenart_version := dav_bytes;
            call_flags := c_uint32 flags;
            call_print_params := print_params;
            call_crypto_params := crypto_params;
            call_transfer := transfer |}
         response_buffer server_buffer in
     let! error_text := Api.get_error_text E rc in
     do! check_eric_result rc error_text in
     let! response_bytes := Api.read_buffer E response_buffer in
     let validation_response := utf8_decode_replace rt response_bytes in
     let! server_bytes := Api.read_buffer E server_buffer in
     let server_response := utf8_decode_replace rt server_bytes in
     let transfer_value := transfer_after in
     ret {| code := rc;
            validation_response := validation_response;
            server_response := server_response;
            transfer_handle := transfer_value |})
    (do! Api.free_buffer E response_buffer in
     Api.free_buffer E server_buffer).

(** [Path(pdf_path) if pdf_path else None] *)
Definition pdf_arg (pdf_path : option PathArg) : option Path :=
  match pdf_path with
  | Some a => if arg_truthy a then Some (Path_of a) else None
  | None => None
  end.

Definition validate_xml (xml_text datenart_version : str)
    (pdf_path : option PathArg) : M (World E) EricResult :=
  let! print_params_struct := _build_print_params (pdf_arg pdf_path) true in
  let flags := ERIC_VALIDIERE ty in
  let flags :=
    match print_params_struct with
    | Some _ => Z.lor flags (ERIC_DRUCKE ty)
    | None => flags
    end in
  _process xml_text datenart_version flags print_params_struct None None.

Definition _load_certificate (cert_path : Path) (pin : option str)
  : M (World E) (Z * Z) :=
  let! path_bytes := encode (Path_str cert_path) in
  let! pin_bytes := encode_opt pin in
  let! (rc, handle, info_pin) :=
    Api.EricGetHandleToCertificate E path_bytes pin_bytes in
  let! text := Api.get_error_text E rc in
  do! check_eric_result rc text in
  ret (handle, info_pin).

Definition send_xml (xml_text datenart_version : str)
    (certificate_path : PathArg) (pin : option str)
    (pdf_path : option PathArg) (transfer_handle : option Z)
  : M (World E) EricResult :=
  let! print_params_struct := _build_print_params (pdf_arg pdf_path) false in
  let flags := Z.lor (ERIC_VALIDIERE ty) (ERIC_SENDE ty) in
  let flags :=
    match print_params_struct with
    | Some _ => Z.lor flags (ERIC_DRUCKE ty)
    | None => flags
    end in
  let! (cert_handle, info_pin_support) :=
    _load_certificate (Path_of certificate_path) pin in
  let! result :=
    try_finally
      (let! crypto_params_struct := _build_crypto_params cert_handle pin in
       _process xml_text datenart_version flags print_params_struct
         (Some crypto_params_struct) transfer_handle)
      (let! _ := Api.EricCloseHandleToCertificate E cert_handle in ret tt) in
  ret result.

End Methods.

End Facade.

Import Facade.

(* ===================================================================== *)
(** * Vocabulary for the statements *)
(* ===================================================================== *)

(** ** Counting events *)

Definition is_create_buffer (e : event) : bool :=
  match e with E_create_buffer _ => true | _ => false end.

Definition is_free_buffer (e : event) : bool :=
  match e with E_free_buffer _ => true | _ => false end.

Definition is_read_buffer (e : event) : bool :=
  match e with E_read_buffer _ _ => true | _ => false end.

Definition is_process (e : event) : bool :=
  match e with E_EricBearbeiteVorgang _ _ _ _ => true | _ => false end.

Definition is_close_certificate (e : event) : bool :=
  match e with E_EricCloseHandleToCertificate _ _ => true | _ => false end.

Definition is_shutdown (e : event) : bool :=
  match e with E_shutdown_eric _ => true | _ => false end.

Definition is_print (e : event) : bool :=
  match e with E_print _ => true | _ => false end.

Definition count (p : event -> bool) (t : list event) : nat :=
  length (List.filter p t).

(** The buffers a trace allocates and frees, in order. *)
Definition created (t : list event) : list N :=
  flat_map (fun e => match e with E_create_buffer b => [b] | _ => [] end) t.

Definition freed (t : list event) : list N :=
  flat_map (fun e => match e with E_free_buffer b => [b] | _ => [] end) t.

(** ** What the pattern means *)

Section Meaning.
Context (rt : Runtime).

(** A non-empty run of digits. *)
Definition digits (d : str) : Prop :=
  d ≠ [] ∧ Forall (fun c => is_digit rt c = true) d.

(** The strings a pattern denotes. *)
Inductive denotes : list item -> str -> Prop :=
| denotes_nil : denotes [] []
| denotes_lit c p s : denotes p s -> denotes (Lit c :: p) (c :: s)
| denotes_digits d p s :
    digits d -> denotes p s -> denotes (Digits :: p) (d ++ s).

(** Four numeric groups separated by dots. *)
Definition is_version (v : str) : Prop :=
  ∃ a b c d, digits a ∧ digits b ∧ digits c ∧ digits d ∧
    v = a ++ dot :: b ++ dot :: c ++ dot :: d.

(** [v] occurs in [n] as a substring. *)
Definition substring (v n : str) : Prop := ∃ pre post, n = pre ++ v ++ post.

(** The name [n] contains a version. *)
Definition has_version (n : str) : Prop :=
  ∃ v, substring v n ∧ is_version v.

(** The scan of the loop, as a recursion over the names from the leaf
    upwards. *)
Fixpoint scan (names : list str) : option str :=
  match names with
  | [] => None
  | n :: names' =>
      match search rt pattern n with
      | Some m => Some m
      | None => scan names'
      end
  end.

End Meaning.

(** ** The warnings of the constructor *)

Section Warnings.
Context (rt : Runtime) (env : gmap (list N) (list N)).

Definition warning (msg : str) : event :=
  E_print (lit "[eric-py] WARNING: " ++ msg).

(** One line per mismatch, in the order of the three checks. *)
Definition warnings (detected : option str) (home : Path) (key : str)
  : list event :=
  (if expected_mismatch env key
   then [warning (expected_message key (default [] (expected_env env)))]
   else [])
  ++ (if detected_mismatch detected key
      then [warning (detected_message (default [] detected) home key)]
      else [])
  ++ (if unsupported key then [warning (unsupported_message key)] else []).

(** The lines of these warnings. *)
Definition warning_lines (detected : option str) (home : Path) (key : str)
  : list str :=
  (if expected_mismatch env key
   then [lit "[eric-py] WARNING: "
         ++ expected_message key (default [] (expected_env env))]
   else [])
  ++ (if detected_mismatch detected key
      then [lit "[eric-py] WARNING: "
            ++ detected_message (default [] detected) home key]
      else [])
  ++ (if unsupported key
      then [lit "[eric-py] WARNING: " ++ unsupported_message key]
      else []).

(** Printing lines one after the other, up to the first that cannot be
    printed. *)
Fixpoint print_lines (faults : Faults) (lines : list str)
  : outcome unit * list event :=
  match lines with
  | [] => (Ok tt, [])
  | line :: rest =>
      match print_fault faults line with
      | Some e => (Raise e, [])
      | None =>
          match print_lines faults rest with
          | (r, t) => (r, E_print line :: t)
          end
      end
  end.

(** The three mismatches, in words. *)
Definition differs_from_expected (key : str) : Prop :=
  ∃ x, env !! lit "ERIC_EXPECTED_VERSION" = Some x ∧ x ≠ [] ∧ key ≠ x.

Definition differs_from_detected (detected : option str) (key : str) : Prop :=
  ∃ d, detected = Some d ∧ d ≠ key.

Definition not_supported (key : str) : Prop :=
  key ∉ SUPPORTED_ERIC_VERSIONS.

End Warnings.

(** ** The shapes a run can take *)

Section Shapes.
Context (rt : Runtime) (ty : Types).

(** The cell behind the transfer pointer that [_process] sets up. *)
Definition transfer_cell (transfer_handle : option Z) : option Z :=
  (fun h => EricTransferHandle ty (if (h =? 0)%Z then 0%Z else h))
    <$> transfer_handle.

(** The runs of [_process] with a given transfer handle and crypto
    parameters: the trace and the outcome. *)
Inductive process_run (th : option Z)
    (cp : option eric_verschluesselungs_parameter_t)
  : list event -> outcome EricResult -> Prop :=
| run_unencodable :
    process_run th cp [] (Raise UnicodeEncodeError)
| run_raised b1 b2 call e :
    call_transfer call = transfer_cell th ->
    call_crypto_params call = cp ->
    b1 ≠ b2 ->
    process_run th cp
      [E_create_buffer b1; E_create_buffer b2;
       E_EricBearbeiteVorgang call b1 b2 (Raised e);
       E_free_buffer b1; E_free_buffer b2]
      (Raise e)
| run_nonzero b1 b2 call rc vt st tout text :
    call_transfer call = transfer_cell th ->
    call_crypto_params call = cp ->
    b1 ≠ b2 ->
    rc ≠ 0%Z ->
    process_run th cp
      [E_create_buffer b1; E_create_buffer b2;
       E_EricBearbeiteVorgang call b1 b2 (Returned rc vt st tout);
       E_get_error_text rc text;
       E_free_buffer b1; E_free_buffer b2]
      (Raise (EricError rc text))
| run_ok b1 b2 call vt st tout text :
    call_transfer call = transfer_cell th ->
    call_crypto_params call = cp ->
    b1 ≠ b2 ->
    process_run th cp
      [E_create_buffer b1; E_create_buffer b2;
       E_EricBearbeiteVorgang call b1 b2 (Returned 0 vt st tout);
       E_get_error_text 0 text;
       E_read_buffer b1 vt; E_read_buffer b2 st;
       E_free_buffer b1; E_free_buffer b2]
      (Ok {| code := 0;
             validation_response := utf8_decode_replace rt vt;
             server_response := utf8_decode_replace rt st;
             transfer_handle := (fun _ => tout) <$> th |}).

(** The runs of [send_xml]. *)
Inductive send_run (th : option Z)
  : list event -> outcome EricResult -> Prop :=
| send_unencodable :
    send_run th [] (Raise UnicodeEncodeError)
| send_no_certificate path pin rc handle info text :
    rc ≠ 0%Z ->
    send_run th
      [E_EricGetHandleToCertificate path pin rc handle info;
       E_get_error_text rc text]
      (Raise (EricError rc text))
| send_with_certificate path pin handle info text cp t r rc :
    zertifikatHandle cp = handle ->
    process_run th (Some cp) t r ->
    send_run th
      ([E_EricGetHandleToCertificate path pin 0 handle info;
        E_get_error_text 0 text]
       ++ t ++ [E_EricCloseHandleToCertificate handle rc])
      r.

End Shapes.

(* ===================================================================== *)
(** * Concrete instances *)
(* ===================================================================== *)

Module Examples.

(** A runtime that knows ASCII only. *)
Definition ascii_runtime : Runtime :=
  {| unicode_decimal := fun _ => false;
     unicode_lower := fun s => s;
     utf8_decode_replace := List.map (fun b => N_of_ascii (ascii_of_byte b)) |}.

(** A file system without links, asked about absolute paths only. *)
Definition plain_fs : FileSystem :=
  {| resolve := fun p => p;
     cwd := Path_of_str (lit "/srv/work") |}.

(** A platform on which nothing raises. *)
Definition no_faults : Faults :=
  {| resolve_fault := fun _ => None;
     exists_fault := fun _ => None;
     mkdir_fault := fun _ => None;
     print_fault := fun _ => None |}.


(** The flag values and the handle width of the engine's C interface. *)
Definition eric_types : Types :=
  {| ERIC_VALIDIERE := 2;
     ERIC_SENDE := 4;
     ERIC_DRUCKE := 32;
     EricTransferHandle := c_uint32 |}.

(** An engine that answers every call from a fixed script and counts
    the calls it has seen. *)
Record Script := {
  on_init : Z;
  on_shutdown : Z;
  on_error_text : Z -> option str;
  on_process : ProcessReply;
  on_get_certificate : Z * Z * Z;
  on_close_certificate : Z;
}.

Definition scripted (sc : Script) : Engine :=
  {| engine_state := nat;
     eng_init := fun _ _ n => (on_init sc, S n);
     eng_shutdown := fun n => (on_shutdown sc, S n);
     eng_error_text := fun rc n => (on_error_text sc rc, S n);
     eng_process := fun _ n => (on_process sc, S n);
     eng_get_certificate := fun _ _ n => (on_get_certificate sc, S n);
     eng_close_certificate := fun _ n => (on_close_certificate sc, S n) |}.

(** Everything succeeds. *)
Definition healthy : Script :=
  {| on_init := 0;
     on_shutdown := 0;
     on_error_text := fun _ => None;
     on_process := Returned 0 [x4f; x4b] [] 7;
     on_get_certificate := (0, 11, 1)%Z;
     on_close_certificate := 0 |}.

(** The transaction is rejected: a nonzero code, and a diagnostic text
    in the validation buffer. *)
Definition rejecting : Script :=
  {| on_init := 0;
     on_shutdown := 0;
     on_error_text := fun _ => Some (lit "rejected");
     on_process := Returned 610001002 [x62; x61; x64] [] 0;
     on_get_certificate := (0, 11, 1)%Z;
     on_close_certificate := 5 |}.

(** The certificate cannot be opened. *)
Definition no_certificate : Script :=
  {| on_init := 0;
     on_shutdown := 0;
     on_error_text := fun _ => Some (lit "bad pin");
     on_process := Returned 0 [] [] 0;
     on_get_certificate := (610001015, 0, 0)%Z;
     on_close_certificate := 0 |}.

(** The engine refuses to shut down. *)
Definition stuck : Script :=
  {| on_init := 0;
     on_shutdown := 610001001;
     on_error_text := fun _ => None;
     on_process := Returned 0 [] [] 0;
     on_get_certificate := (0, 11, 1)%Z;
     on_close_certificate := 0 |}.

Definition example_home : Path :=
  Path_of_str (lit "/opt/ERiC-41.6.2.0/Linux-x86_64").

Definition example_client (initialized : bool) : EricClient :=
  {| eric_home := example_home;
     log_dir := cwd plain_fs;
     _initialized := initialized;
     detected_eric_version := Some (lit "41.6.2.0");
     version_config :=
       {| eric_version := lit "41.6.2.0";
          druck_param_version := 4;
          crypto_param_version := 3 |} |}.

(** A world with no buffer allocated. *)
Definition fresh (sc : Script) (initialized : bool) : World (scripted sc) :=
  Build_World (scripted sc) (example_client initialized) 0%nat ∅ 0%N.

Definition example_env : gmap (list N) (list N) :=
  {[ lit "ERIC_EXPECTED_VERSION" := lit "40.0.0.0" ]}.



Definition versioned_directory : Path :=
  Path_of_str (lit "/opt/eric/41.6.2.0/Linux-x86_64").


(** Some invocations. *)
Definition validation (sc : Script) :=
  validate_xml ascii_runtime eric_types (scripted sc)
    (lit "<Elster/>") (lit "UStVA_2020") None (fresh sc true).

Definition submission (sc : Script) (th : option Z) :=
  send_xml ascii_runtime eric_types (scripted sc)
    (lit "<Elster/>") (lit "UStVA_2020") (AsStr (lit "/etc/eric/cert.pfx"))
    (Some (lit "123456")) None th (fresh sc true).

Definition construction (env : gmap (list N) (list N))
    (explicit : option (list N)) :=
  __init__ ascii_runtime plain_fs env no_faults (Some (AsPath example_home))
    None explicit tt.

End Examples.

(* ===================================================================== *)
(** * The rest of the sources *)
(* ===================================================================== *)

(** ** pathlib: joining and ancestors *)

Module PathOps.

(** [p / segment]: an absolute segment replaces the path, a relative one
    is appended. *)
Definition truediv (p : Path) (segment : str) : Path :=
  let q := Path_of_str segment in
  match root q with
  | [] => mkPath (root p) (parts p ++ parts q)
  | _ => q
  end.

(** [p.parents[i]]; there are as many ancestors as names, and [None]
    stands for [IndexError]. *)
Definition parents (p : Path) (i : nat) : option Path :=
  if (i <? length (parts p))%nat then Some (Nat.iter (S i) parent p) else None.

End PathOps.

Import PathOps.

(** ** eric/loader.py: loading the libraries *)

Module Libraries.

(** [path.exists()] *)
Record Disk := { path_exists : Path -> bool }.

(** [ctypes.CDLL(name, mode=mode)] gives a library, or raises [OSError]
    with a text; and the constant [ctypes.RTLD_GLOBAL]. *)
Record Linker := {
  CDLL : str -> Z -> str + N;
  RTLD_GLOBAL : Z;
}.

Section Libraries.
Context (env : gmap (list N) (list N)) (fs : FileSystem) (faults : Faults)
  (disk : Disk) (linker : Linker).

Definition missing_message (path : Path) : str :=
  lit "Expected ERiC library at " ++ Path_str path
  ++ lit " but it does not exist. "
  ++ lit "Set ERIC_HOME to the root of the ERiC Linux-x86_64 distribution.".

Definition failed_message (path : Path) (exc : str) : str :=
  lit "Failed to load ERiC library at " ++ Path_str path ++ lit ": "
  ++ exc ++ lit ". "
  ++ lit "Ensure dependent libraries are available (libericxerces, plugins).".

Definition _load_shared_library (path : Path) : outcome N :=
  match exists_fault faults path with
  | Some e => Raise e
  | None =>
      if negb (path_exists disk path) then
        Raise (EricLibraryLoadError (missing_message path))
      else
        match CDLL linker (Path_str path) (RTLD_GLOBAL linker) with
        | inr library => Ok library
        | inl exc => Raise (EricLibraryLoadError (failed_message path exc))
        end
  end.

Definition load_ericapi (eric_home : option PathArg) : outcome N :=
  match _resolve_home env fs faults eric_home with
  | Ok home =>
      let lib_path := truediv (truediv home (lit "lib")) (lit "libericapi.so") in
      _load_shared_library lib_path
  | Raise e => Raise e
  end.

Definition load_erictoolkit (eric_home : option PathArg) : outcome N :=
  match _resolve_home env fs faults eric_home with
  | Ok home =>
      let lib_path :=
        truediv (truediv home (lit "erictoolkit")) (lit "liberictoolkit.so") in
      _load_shared_library lib_path
  | Raise e => Raise e
  end.

End Libraries.

End Libraries.

Import Libraries.

(** ** The context manager, as the example and the tests use it *)

Module Callers.

Section Callers.
Context (E : Engine) (faults : Faults).

(** [with client: body].  [__exit__] returns [None], so an exception of
    the body is never swallowed; an exception of [__exit__] replaces
    it. *)
Definition with_client {A} (body : M (World E) A) : M (World E) A :=
  do! __enter__ E faults in
  try_finally body (__exit__ E).

End Callers.

End Callers.

Import Callers.

(** ** tests/conftest.py *)

Module Conftest.

Section Conftest.
(** [here] is [Path(__file__).resolve()], the resolved location of the
    file itself. *)
Context (disk : Disk) (here : Path).

(** [None] stands for the [IndexError] of [parents[1]]. *)
Definition _candidate_eric_home : option (option Path) :=
  match parents here 1 with
  | Some repo_root =>
      let candidate :=
        truediv (truediv (parent repo_root) (lit "ERiC-41.6.2.0"))
          (lit "Linux-x86_64") in
      if path_exists disk candidate then Some (Some candidate) else Some None
  | None => None
  end.

(** The environment after [pytest_configure]. *)
Definition pytest_configure (env : gmap (list N) (list N))
  : option (gmap (list N) (list N)) :=
  if truthy (env !! lit "ERIC_HOME") then Some env
  else
    match _candidate_eric_home with
    | Some (Some candidate) =>
        Some (<[lit "ERIC_HOME" := Path_str candidate]> env)
    | Some None => Some env
    | None => None
    end.

End Conftest.

End Conftest.

Import Conftest.

(** ** More vocabulary *)

(** Every allocated buffer has a number below the next one to be
    allocated. *)
Definition buffers_fresh {E : Engine} (w : World E) : Prop :=
  ∀ b, is_Some (buffers w !! b) -> (b < next_buffer w)%N.

(** The world with another session object. *)
Definition with_self {E : Engine} (c : EricClient) (w : World E) : World E :=
  {| self := c; eng := eng w; buffers := buffers w;
     next_buffer := next_buffer w |}.

(** The pattern ends in a run of digits. *)
Fixpoint ends_with_digits (p : list item) : bool :=
  match p with
  | [] => false
  | [Digits] => true
  | _ :: p' => ends_with_digits p'
  end.

(** ** More instances *)

Module MoreExamples.

Definition home_env : gmap (list N) (list N) :=
  {[ lit "ERIC_HOME" := lit "/opt/ERiC-41.6.2.0/Linux-x86_64" ]}.

(** A disk on which only the primary library is installed. *)
Definition api_only : Disk :=
  {| path_exists := fun p =>
       bool_decide (p = Path_of_str
                          (lit "/opt/ERiC-41.6.2.0/Linux-x86_64/lib/libericapi.so")) |}.

(** A linker that loads everything it is asked for. *)
Definition willing : Linker :=
  {| CDLL := fun _ _ => inr 1%N; RTLD_GLOBAL := 256 |}.

(** A disk that has every file. *)
Definition full_disk : Disk := {| path_exists := fun _ => true |}.

Definition conftest_file : Path :=
  Path_of_str (lit "/home/dev/eric-py/tests/conftest.py").

(** ERIC_HOME below the home directory of a user. *)
Definition tilde_env : gmap (list N) (list N) :=
  {[ lit "ERIC_HOME" := lit "~nobody/eric" ]}.

(** A platform that does not know the user nobody. *)
Definition unknown_user : Faults :=
  {| resolve_fault := fun p =>
       if bool_decide (p = Path_of_str (lit "~nobody/eric"))
       then Some RuntimeError else None;
     exists_fault := fun _ => None;
     mkdir_fault := fun _ => None;
     print_fault := fun _ => None |}.

(** A platform on which the library directory may not be searched. *)
Definition unsearchable : Faults :=
  {| resolve_fault := fun _ => None;
     exists_fault := fun _ => Some OSError;
     mkdir_fault := fun _ => None;
     print_fault := fun _ => None |}.

(** A platform on which a file is in the way of every directory. *)
Definition file_in_the_way : Faults :=
  {| resolve_fault := fun _ => None;
     exists_fault := fun _ => None;
     mkdir_fault := fun _ => Some OSError;
     print_fault := fun _ => None |}.

End MoreExamples.

(* ===================================================================== *)
(** * The pattern search *)
(* ===================================================================== *)

Section RegexFacts.
Context (rt : Runtime).

Lemma match_digits_sound (k : str -> option str) (s m : str) :
  match_digits rt k s = Some m ->
  ∃ d m' s', digits rt d ∧ m = d ++ m' ∧ s = d ++ s' ∧ k s' = Some m'.
Proof.
  revert m. induction s as [|c s IH]; intros m; simpl; [discriminate|].
  destruct (is_digit rt c) eqn:Hc; [|discriminate].
  destruct (match_digits rt k s) as [m0|] eqn:Hrec.
  - intros [= <-].
    destruct (IH m0 eq_refl) as (d & m' & s' & [Hne Hall] & -> & -> & Hk).
    exists (c :: d), m', s'. repeat split; auto.
  - destruct (k s) as [m1|] eqn:Hk; simpl; [|discriminate].
    intros [= <-]. exists [c], m1, s. repeat split; auto.
Qed.

Lemma match_here_sound (p : list item) :
  ∀ s m, match_here rt p s = Some m ->
         denotes rt p m ∧ ∃ rest, s = m ++ rest.
Proof.
  induction p as [|[|c] p IH]; intros s m; simpl.
  - intros [= <-]. split; [constructor|]. by exists s.
  - intros H. apply match_digits_sound in H.
    destruct H as (d & m' & s' & Hd & -> & -> & Hk).
    destruct (IH _ _ Hk) as [Hden [rest ->]].
    split; [by constructor|]. exists rest. by rewrite <- app_assoc.
  - destruct s as [|x s]; [discriminate|].
    destruct (N.eqb_spec x c) as [->|]; [|discriminate].
    destruct (match_here rt p s) as [m0|] eqn:Hrec; simpl; [|discriminate].
    intros [= <-]. destruct (IH _ _ Hrec) as [Hden [rest ->]].
    split; [by constructor|]. by exists rest.
Qed.

Lemma match_digits_complete (k : str -> option str) (d s : str) :
  digits rt d -> is_Some (k s) -> is_Some (match_digits rt k (d ++ s)).
Proof.
  intros [Hne Hall] Hk. induction Hall as [|c d Hc Hall IH]; [done|].
  simpl. rewrite Hc.
  destruct (match_digits rt k (d ++ s)) as [m0|] eqn:Hrec; [by eexists|].
  destruct d as [|c' d].
  - simpl. destruct Hk as [m1 ->]. by eexists.
  - destruct IH as [? ?]; [done|congruence].
Qed.

Lemma match_here_complete (p : list item) (m : str) :
  denotes rt p m -> ∀ rest, is_Some (match_here rt p (m ++ rest)).
Proof.
  induction 1 as [|c p s _ IH|d p s Hd _ IH]; intros rest; simpl.
  - by eexists.
  - rewrite N.eqb_refl. destruct (IH rest) as [m0 ->]. by eexists.
  - rewrite <- app_assoc. by apply match_digits_complete.
Qed.

Lemma search_sound (p : list item) (s m : str) :
  search rt p s = Some m -> denotes rt p m ∧ substring m s.
Proof.
  induction s as [|c s IH]; simpl.
  - destruct (match_here rt p []) as [m0|] eqn:H0; [|discriminate].
    intros [= <-]. destruct (match_here_sound _ _ _ H0) as [Hden [rest Hrest]].
    split; [done|]. by exists [], rest.
  - destruct (match_here rt p (c :: s)) as [m0|] eqn:H0.
    + intros [= <-]. destruct (match_here_sound _ _ _ H0) as [Hden [rest Hrest]].
      split; [done|]. by exists [], rest.
    + intros H. destruct (IH H) as [Hden (pre & post & ->)].
      split; [done|]. by exists (c :: pre), post.
Qed.

Lemma search_complete (p : list item) (s m : str) :
  denotes rt p m -> substring m s -> is_Some (search rt p s).
Proof.
  intros Hden (pre & post & ->).
  induction pre as [|c pre IH].
  - simpl. destruct (match_here_complete _ _ Hden post) as [m0 H0].
    destruct (m ++ post); simpl; rewrite H0; by eexists.
  - simpl. destruct (match_here rt p (c :: pre ++ m ++ post)); [by eexists|done].
Qed.

Lemma denotes_pattern (v : str) : denotes rt pattern v ↔ is_version rt v.
Proof.
  unfold pattern, is_version. split.
  - intros H.
    repeat match goal with
           | H : denotes _ (_ :: _) _ |- _ => inversion H; clear H; subst
           | H : denotes _ [] _ |- _ => inversion H; clear H; subst
           end.
    rewrite app_nil_r. eauto 10.
  - intros (a & b & c & d & Ha & Hb & Hc & Hd & ->).
    rewrite <- (app_nil_r d).
    repeat (first [apply denotes_digits; [done|] | apply denotes_lit]).
    constructor.
Qed.

(** Whether a name contains a version is decided by the search. *)
Lemma has_version_search (n : str) :
  has_version rt n ↔ is_Some (search rt pattern n).
Proof.
  split.
  - intros (v & Hsub & Hv). apply denotes_pattern in Hv.
    by eapply search_complete.
  - intros [v Hv]. destruct (search_sound _ _ _ Hv) as [Hden Hsub].
    exists v. split; [done|]. by apply denotes_pattern.
Qed.

Lemma search_version (n v : str) :
  search rt pattern n = Some v -> is_version rt v ∧ substring v n.
Proof.
  intros H. destruct (search_sound _ _ _ H). split; [|done].
  by apply denotes_pattern.
Qed.

(** A match is never empty, so it counts as true. *)
Lemma is_version_nonempty (v : str) : is_version rt v -> v ≠ [].
Proof.
  intros (a & b & c & d & [Ha _] & _ & _ & _ & ->).
  destruct a; [done|discriminate].
Qed.



Lemma scan_version (names : list str) (v : str) :
  scan rt names = Some v -> is_version rt v.
Proof.
  induction names as [|n names IH]; simpl; [discriminate|].
  destruct (search rt pattern n) eqn:Hs; [|done].
  intros [= <-]. by apply search_version in Hs as [? _].
Qed.

(** A path either has no name below its anchor and is its own parent,
    or it ends in a name and its parent is strictly shorter. *)
Lemma path_cases (p : Path) :
  (parts p = [] ∧ parent p = p) ∨
  (∃ ps x, parts p = ps ++ [x] ∧ name p = x ∧ parts (parent p) = ps
           ∧ p ≠ parent p).
Proof.
  destruct p as [r ps]. unfold parent, name. simpl.
  destruct ps as [|y ps'] using rev_ind; [by left|].
  right. exists ps', y. rewrite removelast_last, last_last.
  repeat split. intros [= H].
  apply (f_equal length) in H. rewrite length_app in H. simpl in H. lia.
Qed.

(** The loop of [detect_eric_version] is the scan of the names from the
    leaf upwards. *)
Lemma detect_loop_scan (p : Path) :
  detect_loop rt p = scan rt (rev (parts p)).
Proof.
  funelim (detect_loop rt p).
  - match goal with H : bool_decide _ = false |- _ =>
      pose proof (proj1 (bool_decide_eq_false _) H) as Hstop end.
    destruct (path_cases current) as [[-> _]|(? & ? & _ & _ & _ & Hne)];
      [done|]. by destruct Hstop.
  - destruct (path_cases current) as [[_ Hself]|(ps & x & -> & Hname & _ & _)].
    + match goal with H : bool_decide _ = true |- _ =>
        by destruct (proj1 (bool_decide_eq_true _) H) end.
    + rewrite rev_unit. simpl. rewrite <- Hname.
      match goal with H : search _ _ _ = Some _ |- _ => by rewrite H end.
  - destruct (path_cases current) as [[_ Hself]|(ps & x & -> & Hname & Hpar & _)].
    + match goal with H : bool_decide _ = true |- _ =>
        by destruct (proj1 (bool_decide_eq_true _) H) end.
    + rewrite rev_unit. simpl. rewrite <- Hname.
      match goal with H : search _ _ _ = None |- _ => rewrite H end.
      match goal with IH : detect_loop _ _ = scan _ _ |- _ => rewrite IH end.
      by rewrite Hpar.
Qed.

Lemma detect_version (fs : FileSystem) (home : Path) (v : str) :
  detect_eric_version rt fs home = Some v -> is_version rt v.
Proof.
  unfold detect_eric_version. rewrite detect_loop_scan. apply scan_version.
Qed.

End RegexFacts.

(* ===================================================================== *)
(** * Runs of the facade *)
(* ===================================================================== *)

(** Unfold the monad and the call wrappers. *)
Ltac unfold_run :=
  unfold Api.create_buffer, Api.EricBearbeiteVorgang, Api.get_error_text,
    Api.read_buffer, Api.free_buffer, Api.init_eric, Api.shutdown_eric,
    Api.EricGetHandleToCertificate, Api.EricCloseHandleToCertificate,
    Api.with_engine, Api.set_buffers, set_self, check_eric_result,
    encode_opt, encode, try_finally, lift, bind, ret, raise, emit, get, put
    in *.

(** Case analysis on the next answer of the engine. *)
Ltac ask_engine :=
  match goal with
  | |- context [eng_process ?E ?c ?s] =>
      let reply := fresh "reply" in
      destruct (eng_process E c s) as [reply ?]; destruct reply
  | |- context [eng_error_text ?E ?c ?s] =>
      destruct (eng_error_text E c s) as [? ?]
  | |- context [eng_get_certificate ?E ?p ?q ?s] =>
      destruct (eng_get_certificate E p q s) as [[[? ?] ?] ?]
  | |- context [eng_close_certificate ?E ?h ?s] =>
      destruct (eng_close_certificate E h s) as [? ?]
  | |- context [eng_shutdown ?E ?s] =>
      destruct (eng_shutdown E s) as [? ?]
  | |- context [eng_init ?E ?h ?l ?s] =>
      destruct (eng_init E h l s) as [? ?]
  end; cbn.

Section RunFacts.
Context (rt : Runtime) (ty : Types) (E : Engine).

(** Two buffers allocated one after the other are distinct, and after
    the engine has appended to them each holds what was written. *)
Lemma fresh_buffers (bs : gmap N (list byte)) (b : N) (vt st : list byte) :
  let bs' := alter (fun old => old ++ st) (N.succ b)
               (alter (fun old => old ++ vt) b
                  (<[N.succ b := []]> (<[b := []]> bs))) in
  bs' !! b = Some vt ∧ bs' !! N.succ b = Some st.
Proof.
  assert (b ≠ N.succ b) by lia.
  simpl. split.
  - rewrite lookup_alter_ne, lookup_alter_eq, lookup_insert_ne,
      lookup_insert_eq by done.
    done.
  - rewrite lookup_alter_eq, lookup_alter_ne, lookup_insert_eq by done.
    done.
Qed.

Lemma _process_run xml dav flags pp cp th (w : World E) r w' t :
  _process rt ty E xml dav flags pp cp th w = (r, w', t) ->
  process_run rt ty th cp t r.
Proof.
  assert (Hb : next_buffer w ≠ N.succ (next_buffer w)) by lia.
  unfold _process. unfold_run.
  destruct (utf8_encode xml) as [xb|]; [|intros [= <- <- <-]; constructor].
  destruct (utf8_encode dav) as [db|]; [|intros [= <- <- <-]; constructor].
  cbn. ask_engine.
  - ask_engine.
    destruct (Z.eqb_spec rc 0) as [->|Hrc]; cbn; intros [= <- <- <-].
    + destruct (fresh_buffers (buffers w) (next_buffer w)
                  validation_text server_text) as [-> ->].
      cbn.
      replace ((λ _ : Z, transfer_out) <$> _)
        with ((λ _ : Z, transfer_out) <$> th) by (by destruct th).
      by apply run_ok.
    + by apply run_nonzero.
  - intros [= <- <- <-]. by apply run_raised.
Qed.

Lemma validate_xml_run xml dav pdf (w : World E) r w' t :
  validate_xml rt ty E xml dav pdf w = (r, w', t) ->
  process_run rt ty None None t r.
Proof.
  unfold validate_xml, _build_print_params. unfold_run.
  destruct (pdf_arg pdf) as [p|]; cbn.
  - destruct (utf8_encode (Path_str p)) as [nb|]; cbn;
      [|intros [= <- <- <-]; constructor].
    destruct (_process _ _ _ _ _ _ _ _ _ w) as [[r0 w0] t0] eqn:Hp.
    intros [= <- <- <-]. by apply _process_run in Hp.
  - destruct (_process _ _ _ _ _ _ _ _ _ w) as [[r0 w0] t0] eqn:Hp.
    intros [= <- <- <-]. by apply _process_run in Hp.
Qed.

(** Sequencing, read backwards. *)
Lemma bind_run {S A B} (m : M S A) (k : A -> M S B) s r s' t :
  bind m k s = (r, s', t) ->
  (∃ a s1 t1 t2, m s = (Ok a, s1, t1) ∧ k a s1 = (r, s', t2) ∧ t = t1 ++ t2)
  ∨ (∃ e, m s = (Raise e, s', t) ∧ r = Raise e).
Proof.
  unfold bind. destruct (m s) as [[[a|e] s1] t1].
  - destruct (k a s1) as [[r2 s2] t2] eqn:Hk. intros [= <- <- <-].
    left. by exists a, s1, t1, t2.
  - intros [= <- <- <-]. right. by exists e.
Qed.

(** The certificate is acquired only when path and PIN can be encoded
    and the engine answers with code 0. *)
Lemma _load_certificate_run path pn (w : World E) r w' t :
  _load_certificate E path pn w = (r, w', t) ->
  (t = [] ∧ r = Raise UnicodeEncodeError)
  ∨ ∃ pb qb rc handle info text,
      t = [E_EricGetHandleToCertificate pb qb rc handle info;
           E_get_error_text rc text]
      ∧ ((rc ≠ 0%Z ∧ r = Raise (EricError rc text))
         ∨ (rc = 0%Z ∧ r = Ok (handle, info)
            ∧ ∀ w1 : World E, encode_opt pn w1 = (Ok qb, w1, []))).
Proof.
  unfold _load_certificate. unfold_run.
  destruct (utf8_encode (Path_str path)) as [cb|];
    [|intros [= <- <- <-]; by left].
  destruct pn as [pn|].
  - destruct (utf8_encode pn) as [pb|]; cbn;
      [|intros [= <- <- <-]; by left].
    destruct (eng_get_certificate E cb (Some pb) (eng w))
      as [[[rc handle] info] s1]; cbn.
    destruct (eng_error_text E rc s1) as [text s2]; cbn.
    destruct (Z.eqb_spec rc 0) as [->|Hrc]; cbn; intros [= <- <- <-];
      right; do 6 eexists; (split; [reflexivity|]); [right|left]; done.
  - cbn.
    destruct (eng_get_certificate E cb None (eng w))
      as [[[rc handle] info] s1]; cbn.
    destruct (eng_error_text E rc s1) as [text s2]; cbn.
    destruct (Z.eqb_spec rc 0) as [->|Hrc]; cbn; intros [= <- <- <-];
      right; do 6 eexists; (split; [reflexivity|]); [right|left]; done.
Qed.

Lemma _build_print_params_run pdf preview (w : World E) r w' t :
  _build_print_params E pdf preview w = (r, w', t) ->
  w' = w ∧ t = [] ∧ (r = Raise UnicodeEncodeError ∨ ∃ pp, r = Ok pp).
Proof.
  unfold _build_print_params. unfold_run.
  destruct pdf as [p|]; [destruct (utf8_encode (Path_str p))|];
    intros [= <- <- <-]; eauto.
Qed.

Lemma send_xml_run xml dav cert pn pdf th (w : World E) r w' t :
  send_xml rt ty E xml dav cert pn pdf th w = (r, w', t) ->
  send_run rt ty th t r.
Proof.
  unfold send_xml. intros H.
  apply bind_run in H as [(pp & s1 & t1 & t2 & Hpp & H & ->)|(e & Hpp & ->)].
  2: { apply _build_print_params_run in Hpp as (_ & -> & [[= ->]|[? [=]]]).
       constructor. }
  apply _build_print_params_run in Hpp as (-> & -> & _). simpl.
  apply bind_run in H as [([h i] & s2 & t3 & t4 & Hc & H & ->)|(e & Hc & ->)].
  2: { apply _load_certificate_run in Hc
         as [[-> [= ->]]|(pb & qb & rc & h & i & text & -> &
                          [[Hrc [= ->]]|(_ & [=] & _)])].
       - constructor.
       - by apply send_no_certificate. }
  apply _load_certificate_run in Hc
    as [[_ [=]]|(pb & qb & rc & h' & i' & text & -> &
                 [[_ [=]]|(-> & [= <- <-] & Hpin)])].
  revert H. unfold _build_crypto_params, try_finally, bind, ret.
  cbn beta. rewrite Hpin.
  match goal with
  | |- context [_process ?a ?b ?c ?d ?e ?f ?g ?h ?i ?s] =>
      destruct (_process a b c d e f g h i s) as [[r0 w0] t0] eqn:Hp
  end.
  apply _process_run in Hp. unfold_run. cbn. ask_engine.
  destruct r0; intros [= <- <- <-]; rewrite ?app_nil_r;
    match goal with
    | |- send_run _ _ _ (?a :: ?b :: ?t ++ ?c) _ =>
        change (a :: b :: t ++ c) with ([a; b] ++ t ++ c)
    end;
    by eapply send_with_certificate; [|exact Hp].
Qed.

End RunFacts.

(* ===================================================================== *)
(** * Properties of [validate_xml] and [send_xml] *)
(* ===================================================================== *)

(** Find out which event of a concrete trace a membership speaks of. *)
Ltac which_event H :=
  simpl in H;
  repeat (destruct H as [H|H]; [try discriminate H|]);
  try (exfalso; exact H).

Section Transactions.
Context (rt : Runtime) (ty : Types) (E : Engine).

(** Either operation, as a run of [send_xml]'s shape or of
    [_process]'s. *)
Lemma operation_run xml dav pdf cert pn th (w : World E) r w' t :
  validate_xml rt ty E xml dav pdf w = (r, w', t)
  ∨ send_xml rt ty E xml dav cert pn pdf th w = (r, w', t) ->
  (∃ th' cp, process_run rt ty th' cp t r)
  ∨ (∃ path pin rc handle info text,
       rc ≠ 0%Z ∧ r = Raise (EricError rc text)
       ∧ t = [E_EricGetHandleToCertificate path pin rc handle info;
              E_get_error_text rc text])
  ∨ (∃ path pin handle info text cp t0 rc,
       process_run rt ty th (Some cp) t0 r
       ∧ t = [E_EricGetHandleToCertificate path pin 0 handle info;
              E_get_error_text 0 text]
             ++ t0 ++ [E_EricCloseHandleToCertificate handle rc]).
Proof.
  intros [H|H].
  - left. apply validate_xml_run in H. eauto.
  - apply send_xml_run in H. inversion H; subst.
    + left. exists th, None. constructor.
    + right. left. eauto 10.
    + right. right. eauto 12.
Qed.

(** C1 (as amended): for every invocation of validate or send, the two
    engine buffers are decoded into the Result only after the return
    code has been confirmed to be 0: a returned Result is preceded by
    the transaction call with code 0, the check, and then the two
    reads, whose decoded contents (what the engine wrote) are the two
    texts of the Result.  When process_transaction returns a nonzero
    code, the check raises EricError with that code before any buffer
    is read: no buffer is decoded and the text the engine wrote is not
    captured. *)
Theorem buffers_decoded_only_after_success
    xml dav pdf cert pn th (w : World E) r w' t :
  validate_xml rt ty E xml dav pdf w = (r, w', t)
  ∨ send_xml rt ty E xml dav cert pn pdf th w = (r, w', t) ->
  (∀ res, r = Ok res ->
     ∃ t0 call b1 b2 vt st tout text t1,
       t = t0 ++ [E_EricBearbeiteVorgang call b1 b2 (Returned 0 vt st tout);
                  E_get_error_text 0 text;
                  E_read_buffer b1 vt; E_read_buffer b2 st] ++ t1
       ∧ count is_read_buffer t0 = 0%nat
       ∧ count is_read_buffer t1 = 0%nat
       ∧ validation_response res = utf8_decode_replace rt vt
       ∧ server_response res = utf8_decode_replace rt st)
  ∧ (∀ call b1 b2 rc vt st tout,
       In (E_EricBearbeiteVorgang call b1 b2 (Returned rc vt st tout)) t ->
       rc ≠ 0%Z ->
       count is_read_buffer t = 0%nat
       ∧ ∃ text, r = Raise (EricError rc text)).
Proof.
  intros H. apply operation_run in H.
  destruct H as [(th' & cp & H)|[(? & ? & ? & ? & ? & ? & _ & -> & ->)
                |(? & ? & ? & ? & ? & cp & t0 & ? & H & ->)]].
  - inversion H; subst; split;
      try (intros res Hres; discriminate Hres);
      try (intros * Hin Hrc; which_event Hin;
           injection Hin as; subst; try done; (split; [done|eauto])).
    intros res [= <-].
    exists [E_create_buffer b1; E_create_buffer b2], call, b1, b2, vt, st,
      tout, text, [E_free_buffer b1; E_free_buffer b2].
    done.
  - split; [intros res [=]|]. intros * Hin. which_event Hin.
  - inversion H; subst; split;
      try (intros res Hres; discriminate Hres);
      try (intros * Hin Hrc; which_event Hin;
           injection Hin as; subst; try done; (split; [done|eauto])).
    intros res [= <-].
    eexists (_ :: _ :: _ :: _ :: []), call, b1, b2, vt, st,
      tout, text, [_; _; _].
    done.
Qed.

(** C9: every EricResult returned by validate_xml or send_xml has code
    0. *)
Theorem returned_result_has_code_zero
    xml dav pdf cert pn th (w : World E) res w' t :
  validate_xml rt ty E xml dav pdf w = (Ok res, w', t)
  ∨ send_xml rt ty E xml dav cert pn pdf th w = (Ok res, w', t) ->
  code res = 0%Z.
Proof.
  intros H. apply operation_run in H.
  destruct H as [(th' & cp & H)|[(? & ? & ? & ? & ? & ? & _ & [=] & _)
                |(? & ? & ? & ? & ? & cp & t0 & ? & H & _)]];
    by inversion H.
Qed.

(** C10: when the caller omits the transfer handle (every validate_xml
    call, every send_xml call without one) the engine is passed a null
    pointer and the returned Result has no transfer handle; when the
    caller supplies one, the value the engine left in the cell is read
    back into the Result. *)
Theorem transfer_handle_only_when_supplied xml dav pdf cert pn (w : World E) :
  (∀ r w' t,
     validate_xml rt ty E xml dav pdf w = (r, w', t)
     ∨ send_xml rt ty E xml dav cert pn pdf None w = (r, w', t) ->
     (∀ call b1 b2 reply,
        In (E_EricBearbeiteVorgang call b1 b2 reply) t ->
        call_transfer call = None)
     ∧ (∀ res, r = Ok res -> transfer_handle res = None))
  ∧ (∀ h res w' t,
       send_xml rt ty E xml dav cert pn pdf (Some h) w = (Ok res, w', t) ->
       ∃ call b1 b2 vt st tout,
         In (E_EricBearbeiteVorgang call b1 b2 (Returned 0 vt st tout)) t
         ∧ call_transfer call = Some (EricTransferHandle ty h)
         ∧ transfer_handle res = Some tout).
Proof.
  split.
  - intros r w' t H.
    assert (Hrun : process_run rt ty None None t r
                   ∨ send_run rt ty None t r).
    { destruct H as [H|H];
        [left; by apply validate_xml_run in H
        |right; by apply send_xml_run in H]. }
    destruct Hrun as [Hrun|Hrun].
    + inversion Hrun; subst; split;
        try (intros res Hres; discriminate Hres);
        try (by intros res [= <-]);
        intros * Hin; which_event Hin; by injection Hin as; subst.
    + inversion Hrun as [| |? ? ? ? ? ? ? ? ? ? Hp]; subst;
        try (split; [intros * Hin; which_event Hin
                    |intros res Hres; discriminate Hres]).
      inversion Hp; subst; split;
        try (intros res Hres; discriminate Hres);
        try (by intros res [= <-]);
        intros * Hin; which_event Hin; by injection Hin as; subst.
  - intros h res w' t H. apply send_xml_run in H.
    inversion H as [| |? ? ? ? ? ? ? ? ? ? Hp]; subst.
    inversion Hp as [| | |? ? ? ? ? ? ? Hcell]; subst.
    exists call, b1, b2, vt, st, tout. split; [simpl; tauto|].
    split; [|done]. rewrite Hcell. unfold transfer_cell. simpl.
    by destruct (Z.eqb_spec h 0) as [->|].
Qed.

(** C6 (as amended): in every invocation of validate or send that
    reaches the process_transaction call, exactly two engine buffers
    are allocated before the call, they are the two passed to it, and
    exactly these two are freed after it, whatever the call does
    (returns 0, returns a nonzero code, or raises); the call is made at
    most once.  An invocation that ends before the call (a text that
    cannot be encoded, or in send a certificate that cannot be
    acquired) allocates no buffer and frees none. *)
Theorem buffers_bracket_the_transaction
    xml dav pdf cert pn th (w : World E) r w' t :
  validate_xml rt ty E xml dav pdf w = (r, w', t)
  ∨ send_xml rt ty E xml dav cert pn pdf th w = (r, w', t) ->
  (∀ call b1 b2 reply,
     In (E_EricBearbeiteVorgang call b1 b2 reply) t ->
     b1 ≠ b2
     ∧ count is_create_buffer t = 2%nat ∧ count is_free_buffer t = 2%nat
     ∧ created t = [b1; b2] ∧ freed t = [b1; b2]
     ∧ ∃ t0 t1 t2,
         t = t0 ++ [E_create_buffer b1; E_create_buffer b2;
                    E_EricBearbeiteVorgang call b1 b2 reply]
               ++ t1 ++ [E_free_buffer b1; E_free_buffer b2] ++ t2)
  ∧ (count is_process t = 0%nat ->
     count is_create_buffer t = 0%nat ∧ count is_free_buffer t = 0%nat)
  ∧ (count is_process t <= 1)%nat.
Proof.
  intros H. apply operation_run in H.
  destruct H as [(th' & cp & H)|[(? & ? & ? & ? & ? & ? & _ & -> & ->)
                |(? & ? & ? & ? & ? & cp & t0 & ? & H & ->)]].
  - inversion H; subst; (split; [|split; [done|cbn; lia]]);
      intros * Hin; which_event Hin; injection Hin as; subst;
      (do 5 (split; [done|])).
    + by eexists [], [], [].
    + by eexists [], [_], [].
    + by eexists [], [_; _; _], [].
  - split; [|split; [done|cbn; lia]]. intros * Hin. which_event Hin.
  - inversion H; subst; (split; [|split; [done|cbn; lia]]);
      intros * Hin; which_event Hin; injection Hin as; subst;
      (do 5 (split; [done|])).
    + by eexists [_; _], [], [_].
    + by eexists [_; _], [_], [_].
    + by eexists [_; _], [_; _; _], [_].
Qed.

(** C2: in send, when the certificate is not acquired no
    process_transaction call and no release call is made and the error
    of the acquisition is raised; when it is acquired, the release call
    is made exactly once, as the last call of the invocation, and a
    failure of process_transaction (a raising call or a nonzero code)
    reaches the caller unchanged whatever the release call returns. *)
Theorem certificate_released_exactly_once
    xml dav cert pn pdf th (w : World E) r w' t :
  send_xml rt ty E xml dav cert pn pdf th w = (r, w', t) ->
  ((∀ path pin rc handle info,
      In (E_EricGetHandleToCertificate path pin rc handle info) t ->
      rc ≠ 0%Z) ->
   count is_process t = 0%nat ∧ count is_close_certificate t = 0%nat
   ∧ ∃ e, r = Raise e)
  ∧ (∀ path pin rc handle info,
       In (E_EricGetHandleToCertificate path pin rc handle info) t ->
       rc ≠ 0%Z -> ∃ text, r = Raise (EricError rc text))
  ∧ (∀ path pin handle info,
       In (E_EricGetHandleToCertificate path pin 0 handle info) t ->
       ∃ t0 rc,
         t = t0 ++ [E_EricCloseHandleToCertificate handle rc]
         ∧ count is_close_certificate t0 = 0%nat
         ∧ (∀ call b1 b2 e,
              In (E_EricBearbeiteVorgang call b1 b2 (Raised e)) t0 ->
              r = Raise e)
         ∧ (∀ call b1 b2 c vt st tout,
              In (E_EricBearbeiteVorgang call b1 b2 (Returned c vt st tout)) t0 ->
              c ≠ 0%Z ->
              ∃ text, In (E_get_error_text c text) t0
                      ∧ r = Raise (EricError c text))).
Proof.
  intros H. apply send_xml_run in H.
  inversion H as [|? ? rc0 ? ? ? Hrc0|? ? ? ? ? ? t1 ? rc1 ? Hp]; subst.
  - split; [eauto|]. split; intros * Hin; which_event Hin.
  - split; [eauto|].
    split; intros * Hin; which_event Hin; injection Hin as; subst;
      [eauto|done].
  - split.
    { intros Hno. exfalso. eapply Hno; [by left|done]. }
    split.
    { intros * Hin Hrc.
      inversion Hp; subst; which_event Hin; injection Hin as; by subst. }
    intros path' pin' handle' info' Hin.
    assert (handle' = zertifikatHandle cp) as ->.
    { inversion Hp; subst; which_event Hin; injection Hin as; by subst. }
    eexists (_ ++ t1), rc1. split; [apply app_assoc|].
    inversion Hp; subst; (split; [done|]);
      split; intros * Hin'; which_event Hin'; try (intros Hc);
      injection Hin' as; subst; try done.
    eexists. split; [simpl; tauto|done].
Qed.

End Transactions.

(* ===================================================================== *)
(** * Properties of the session life cycle *)
(* ===================================================================== *)

Section Lifecycle.
Context (E : Engine).

(** C8 (as amended): close() on an Uninitialized session is a no-op.
    On an Initialized session close() calls the engine's shutdown
    exactly once.  When that call returns normally (code 0) the session
    is Uninitialized afterwards and a second close() is a no-op that
    does not raise; two calls in sequence therefore shut the engine
    down at most once.  When the first call raises (a nonzero code from
    shutdown) the session stays Initialized. *)
Theorem close_idempotent_after_success (w : World E) :
  (_initialized (self w) = false -> close E w = (Ok tt, w, []))
  ∧ (_initialized (self w) = true ->
     ∀ r w1 t1, close E w = (r, w1, t1) ->
       count is_shutdown t1 = 1%nat
       ∧ (r = Ok tt ->
          _initialized (self w1) = false
          ∧ close E w1 = (Ok tt, w1, []))
       ∧ (∀ e, r = Raise e ->
            _initialized (self w1) = true
            ∧ ∃ rc text, rc ≠ 0%Z ∧ e = EricError rc text
                         ∧ In (E_shutdown_eric rc) t1))
  ∧ (∀ r w2 t, (do! close E in close E) w = (r, w2, t) ->
       (count is_shutdown t <= 1)%nat).
Proof.
  unfold close. unfold_run. destruct w as [c s bs nb]; cbn.
  destruct (_initialized c) eqn:Hinit; cbn.
  - split; [done|]. split.
    + intros _ r w1 t1.
      destruct (eng_shutdown E s) as [rc s1]; cbn.
      destruct (eng_error_text E rc s1) as [text s2]; cbn.
      destruct (Z.eqb_spec rc 0) as [->|Hrc]; cbn; intros [= <- <- <-].
      * split; [done|]. split; [|done]. intros _. done.
      * split; [done|]. split; [done|]. intros e' [= <-].
        split; [done|]. exists rc, text. split; [done|]. split; [done|].
        simpl. tauto.
    + intros r w2 t.
      destruct (eng_shutdown E s) as [rc s1]; cbn.
      destruct (eng_error_text E rc s1) as [text s2]; cbn.
      destruct (Z.eqb_spec rc 0) as [->|Hrc]; cbn; intros [= <- <- <-];
        cbn; lia.
  - split; [done|]. split; [done|].
    rewrite Hinit. cbn. intros r w2 t [= <- <- <-]. cbn. lia.
Qed.

End Lifecycle.

(* ===================================================================== *)
(** * Properties of the constructor *)
(* ===================================================================== *)

Section Construction.
Context (rt : Runtime) (fs : FileSystem) (env : gmap (list N) (list N))
  (faults : Faults).

Lemma default_config :
  VERSION_CONFIGS !! DEFAULT_ERIC_VERSION =
    Some {| eric_version := lit "41.6.2.0";
            druck_param_version := 4;
            crypto_param_version := 3 |}.
Proof. reflexivity. Qed.

Lemma expected_mismatch_true (key : str) :
  expected_mismatch env key = true ↔ differs_from_expected env key.
Proof.
  unfold expected_mismatch, expected_env, differs_from_expected.
  destruct (env !! lit "ERIC_EXPECTED_VERSION") as [[|c x]|].
  - split; [done|]. by intros (x & [= <-] & ? & _).
  - rewrite negb_true_iff, bool_decide_eq_false. split.
    + intros Hne. by exists (c :: x).
    + by intros (x' & [= <-] & _ & ?).
  - split; [done|]. by intros (x & [=] & _).
Qed.

Lemma detected_mismatch_true (home : Path) (key : str) :
  detected_mismatch (detect_eric_version rt fs home) key = true
  ↔ differs_from_detected (detect_eric_version rt fs home) key.
Proof.
  unfold detected_mismatch, differs_from_detected.
  destruct (detect_eric_version rt fs home) as [d|] eqn:Hd.
  - apply detect_version, is_version_nonempty in Hd.
    destruct d as [|c d]; [done|].
    rewrite negb_true_iff, bool_decide_eq_false. split.
    + intros Hne. by exists (c :: d).
    + by intros (d' & [= <-] & ?).
  - split; [done|]. by intros (d & [=] & _).
Qed.

Lemma unsupported_true (key : str) :
  unsupported key = true ↔ not_supported key.
Proof.
  unfold unsupported, not_supported.
  by rewrite negb_true_iff, bool_decide_eq_false.
Qed.

(** The identifier is the explicit one when it is given, else the
    detected one when there is one, else the default. *)
Lemma version_key_order (explicit : option str) (home : Path) :
  version_key explicit (detect_eric_version rt fs home) =
    match explicit with
    | Some (c :: e) => c :: e
    | _ =>
        match detect_eric_version rt fs home with
        | Some d => d
        | None => DEFAULT_ERIC_VERSION
        end
    end.
Proof.
  unfold version_key, or_str.
  destruct explicit as [[|c e]|]; try done;
    destruct (detect_eric_version rt fs home) as [[|c d]|] eqn:Hd; try done;
    by apply detect_version, is_version_nonempty in Hd.
Qed.

(** The warnings are the lines of the warnings, printed. *)
Lemma warnings_lines detected (home : Path) key :
  warnings env detected home key =
    List.map E_print (warning_lines env detected home key).
Proof.
  unfold warnings, warning_lines, warning.
  by destruct (expected_mismatch env key), (detected_mismatch detected key),
    (unsupported key).
Qed.



Lemma print_lines_returned lines u t :
  print_lines faults lines = (Ok u, t) ->
  t = List.map E_print lines
  ∧ Forall (fun line => print_fault faults line = None) lines.
Proof.
  revert t. induction lines as [|line rest IH]; simpl; intros t H.
  - by injection H as _ <-.
  - destruct (print_fault faults line) eqn:Hline; [done|].
    destruct (print_lines faults rest) as [r t'] eqn:Hrest.
    injection H as -> <-.
    destruct (IH t' eq_refl) as [-> Hall].
    split; [done|]. by constructor.
Qed.

(** The constructor, once the installation root is known. *)
Lemma __init___run eh ld ev (home : Path) :
  home_of fs env faults eh = Ok home ->
  let detected := detect_eric_version rt fs home in
  let key := version_key ev detected in
  let client :=
    {| eric_home := home;
       log_dir := log_of fs ld;
       _initialized := false;
       detected_eric_version := detected;
       version_config :=
         default {| eric_version := lit "41.6.2.0";
                    druck_param_version := 4;
                    crypto_param_version := 3 |}
                 (VERSION_CONFIGS !! key) |} in
  __init__ rt fs env faults eh ld ev tt =
    if bool_decide (policy rt env = lit "strict") then
      if expected_mismatch env key then
        (Raise (EricLibraryLoadError
                  (expected_message key (default [] (expected_env env)))),
         tt, [])
      else if detected_mismatch detected key then
        (Raise (EricLibraryLoadError
                  (detected_message (default [] detected) home key)),
         tt, [])
      else if unsupported key then
        (Raise (EricLibraryLoadError (unsupported_message key)), tt, [])
      else (Ok client, tt, [])
    else if bool_decide (policy rt env = lit "warn") then
      match print_lines faults (warning_lines env detected home key) with
      | (Ok _, t) => (Ok client, tt, t)
      | (Raise e, t) => (Raise e, tt, t)
      end
    else (Ok client, tt, []).
Proof.
  intros Hhome. cbv zeta.
  unfold __init__, lookup_config, _handle_mismatch, print, warning_lines.
  rewrite Hhome, default_config. unfold_run.
  destruct (bool_decide (policy rt env = lit "strict")).
  { repeat match goal with
           | |- context [if ?b then _ else _] => destruct b
           end; reflexivity. }
  destruct (bool_decide (policy rt env = lit "warn")).
  2: { repeat match goal with
              | |- context [if ?b then _ else _] => destruct b
              end; reflexivity. }
  destruct (expected_mismatch env _), (detected_mismatch _ _),
    (unsupported _); unfold app, print_lines;
    repeat match goal with
           | |- context [print_fault faults ?l] =>
               destruct (print_fault faults l)
           end; reflexivity.
Qed.



(** C7: the constructor resolves the identifier in order -- the
    explicit argument when given, else the identifier detected from the
    installation root, else the default.  It is this identifier that
    the constructor works with: [version_key] computes it, the three
    checks are made on it (a session returned under the strict policy
    has no mismatch for it, a session returned under warn has printed
    the warnings for it, any other policy has printed nothing), and the
    session is configured with the registry's entry for it, or with the
    entry of the default identifier when the registry has none. *)
Theorem version_resolved_in_order eh ld ev (c : EricClient) t :
  __init__ rt fs env faults eh ld ev tt = (Ok c, tt, t) ->
  let detected := detect_eric_version rt fs (eric_home c) in
  let key :=
    match ev with
    | Some (x :: e) => x :: e
    | _ =>
        match detected with
        | Some d => d
        | None => DEFAULT_ERIC_VERSION
        end
    end in
  detected_eric_version c = detected
  ∧ version_key ev (detected_eric_version c) = key
  ∧ (∃ fallback,
       VERSION_CONFIGS !! DEFAULT_ERIC_VERSION = Some fallback
       ∧ version_config c =
           match VERSION_CONFIGS !! key with
           | Some config => config
           | None => fallback
           end)
  ∧ (policy rt env = lit "strict" ->
     t = []
     ∧ ¬ differs_from_expected env key
     ∧ ¬ differs_from_detected detected key
     ∧ ¬ not_supported key)
  ∧ (policy rt env = lit "warn" ->
     t = warnings env detected (eric_home c) key)
  ∧ (policy rt env ≠ lit "strict" -> policy rt env ≠ lit "warn" -> t = []).
Proof.
  destruct (home_of fs env faults eh) as [home|e] eqn:Hhome.
  2: { unfold __init__. rewrite Hhome. unfold_run. discriminate. }
  rewrite (__init___run eh ld ev home Hhome).
  pose proof (version_key_order ev home) as Hkey.
  pose proof (expected_mismatch_true
                (version_key ev (detect_eric_version rt fs home))) as H1.
  pose proof (detected_mismatch_true home
                (version_key ev (detect_eric_version rt fs home))) as H2.
  pose proof (unsupported_true
                (version_key ev (detect_eric_version rt fs home))) as H3.
  pose proof (warnings_lines (detect_eric_version rt fs home) home
                (version_key ev (detect_eric_version rt fs home))) as Hw.
  remember (version_key ev (detect_eric_version rt fs home)) as k eqn:Hk.
  intros H.
  assert (Hc : c = {| eric_home := home;
                      log_dir := log_of fs ld;
                      _initialized := false;
                      detected_eric_version := detect_eric_version rt fs home;
                      version_config :=
                        default {| eric_version := lit "41.6.2.0";
                                   druck_param_version := 4;
                                   crypto_param_version := 3 |}
                          (VERSION_CONFIGS !! k) |}).
  { repeat match type of H with
           | context [if ?b then _ else _] => destruct b
           end;
      try destruct (print_lines faults _) as [[u|e] t'];
      congruence. }
  subst c. simpl. rewrite <- Hk, <- Hkey.
  split; [done|]. split; [done|]. split.
  { eexists. split; [apply default_config|].
    by destruct (VERSION_CONFIGS !! _). }
  split; [|split].
  - intros Hpol. rewrite bool_decide_eq_true_2 in H by done.
    destruct (expected_mismatch env k); [done|].
    destruct (detected_mismatch _ k); [done|].
    destruct (unsupported k); [done|].
    split; [congruence|].
    split; [|split]; intros Hm.
    + by apply H1 in Hm.
    + by apply H2 in Hm.
    + by apply H3 in Hm.
  - intros Hpol.
    rewrite bool_decide_eq_false_2 in H by (by rewrite Hpol).
    rewrite bool_decide_eq_true_2 in H by done.
    destruct (print_lines faults _) as [[u|e] t'] eqn:Hp; [|done].
    apply print_lines_returned in Hp as [-> _].
    rewrite Hw. congruence.
  - intros Hstrict Hwarn.
    rewrite !bool_decide_eq_false_2 in H by done. congruence.
Qed.


End Construction.

(* ===================================================================== *)
(** * The properties at work on concrete engines *)
(* ===================================================================== *)

Import Examples.

(** A validation against the healthy engine returns a Result whose texts
    were read after the call and the check. *)
Lemma buffers_decoded_only_after_success_witness :
  match validation healthy with
  | (Ok res, _, t) =>
      ∃ t0 call b1 b2 vt st tout text t1,
        t = t0 ++ [E_EricBearbeiteVorgang call b1 b2 (Returned 0 vt st tout);
                   E_get_error_text 0 text;
                   E_read_buffer b1 vt; E_read_buffer b2 st] ++ t1
        ∧ count is_read_buffer t0 = 0%nat
        ∧ count is_read_buffer t1 = 0%nat
        ∧ validation_response res = utf8_decode_replace ascii_runtime vt
        ∧ server_response res = utf8_decode_replace ascii_runtime st
  | _ => False
  end.
Proof.
  destruct (validation healthy) as [[[res|e] w'] t] eqn:Hrun.
  - apply (proj1 (buffers_decoded_only_after_success
                    ascii_runtime eric_types (scripted healthy)
                    (lit "<Elster/>") (lit "UStVA_2020") None (AsStr [])
                    None None (fresh healthy true) (Ok res) w' t
                    (or_introl Hrun)) res eq_refl).
  - vm_compute in Hrun. discriminate Hrun.
Defined.

(** The claim C1 fails where the engine rejects the transaction: it has
    written a diagnostic text to the validation buffer, the code is not
    0, and no buffer is read. *)
Lemma diagnostic_text_not_decoded :
  match validation rejecting with
  | (r, _, t) =>
      r = Raise (EricError 610001002 (Some (lit "rejected")))
      ∧ (∃ call b1 b2,
           In (E_EricBearbeiteVorgang call b1 b2
                 (Returned 610001002 [x62; x61; x64] [] 0)) t)
      ∧ count is_read_buffer t = 0%nat
  end.
Proof.
  vm_compute. split; [reflexivity|]. split; [|reflexivity].
  do 3 eexists. right. right. left. reflexivity.
Qed.

(** A submission that the engine rejects releases the certificate once,
    at the end, and raises the error of the transaction although the
    release itself returns a nonzero code. *)
Lemma certificate_released_exactly_once_witness :
  match submission rejecting None with
  | (r, _, t) =>
      (∃ path pin, In (E_EricGetHandleToCertificate path pin 0 11 1) t)
      ∧ ∃ t0 rc,
          t = t0 ++ [E_EricCloseHandleToCertificate 11 rc]
          ∧ count is_close_certificate t0 = 0%nat
          ∧ (∀ call b1 b2 e,
               In (E_EricBearbeiteVorgang call b1 b2 (Raised e)) t0 ->
               r = Raise e)
          ∧ (∀ call b1 b2 c vt st tout,
               In (E_EricBearbeiteVorgang call b1 b2 (Returned c vt st tout)) t0 ->
               c ≠ 0%Z ->
               ∃ text, In (E_get_error_text c text) t0
                       ∧ r = Raise (EricError c text))
  end.
Proof.
  destruct (submission rejecting None) as [[r w'] t] eqn:Hrun.
  pose proof (certificate_released_exactly_once
                ascii_runtime eric_types (scripted rejecting)
                (lit "<Elster/>") (lit "UStVA_2020")
                (AsStr (lit "/etc/eric/cert.pfx")) (Some (lit "123456"))
                None None (fresh rejecting true) r w' t Hrun)
    as (_ & _ & Hreleased).
  assert (Hin : ∃ path pin, In (E_EricGetHandleToCertificate path pin 0 11 1) t).
  { vm_compute in Hrun. injection Hrun as <- <- <-.
    do 2 eexists. left. reflexivity. }
  split; [exact Hin|].
  destruct Hin as (path & pin & Hin). exact (Hreleased path pin 11%Z 1%Z Hin).
Defined.




(** A session constructed with an unknown explicit version is configured
    as for the default version. *)
Lemma version_resolved_in_order_witness :
  match construction example_env (Some (lit "1.2.3.4")) with
  | (Ok c, _, _) =>
      detected_eric_version c = Some (lit "41.6.2.0")
      ∧ eric_version (version_config c) = lit "41.6.2.0"
  | _ => False
  end.
Proof.
  destruct (construction example_env (Some (lit "1.2.3.4")))
    as [[[c|e] []] t] eqn:Hrun.
  - destruct (version_resolved_in_order ascii_runtime plain_fs example_env
                no_faults (Some (AsPath example_home)) None
                (Some (lit "1.2.3.4")) c t Hrun)
      as (Hdet & _ & (fallback & Hfb & Hcfg) & _).
    assert (Hhome : eric_home c = example_home).
    { vm_compute in Hrun. by injection Hrun as <- _. }
    rewrite Hhome in Hdet. split.
    + rewrite Hdet. vm_compute. reflexivity.
    + rewrite Hcfg. vm_compute in Hfb. injection Hfb as <-.
      vm_compute. reflexivity.
  - vm_compute in Hrun. discriminate Hrun.
Defined.

(** Closing a session of the healthy engine shuts it down once; closing
    it again does nothing. *)
Lemma close_idempotent_after_success_witness :
  _initialized (self (fresh healthy true)) = true
  ∧ ∃ w1 t1,
      close (scripted healthy) (fresh healthy true) = (Ok tt, w1, t1)
      ∧ count is_shutdown t1 = 1%nat
      ∧ close (scripted healthy) w1 = (Ok tt, w1, []).
Proof.
  split; [reflexivity|].
  destruct (close (scripted healthy) (fresh healthy true))
    as [[r w1] t1] eqn:Hrun.
  destruct (proj1 (proj2 (close_idempotent_after_success
                            (scripted healthy) (fresh healthy true)))
              eq_refl r w1 t1 Hrun) as (Hcount & Hok & _).
  assert (Hr : r = Ok tt).
  { vm_compute in Hrun. by injection Hrun as <- _ _. }
  exists w1, t1. subst r. split; [reflexivity|]. split; [exact Hcount|].
  exact (proj2 (Hok eq_refl)).
Defined.

(** The claim C8 fails where the engine refuses to shut down: the first
    close() raises, the session stays Initialized, and the second close()
    calls shutdown again and raises again. *)
Lemma failed_shutdown_is_retried :
  match close (scripted stuck) (fresh stuck true) with
  | (r1, w1, t1) =>
      match close (scripted stuck) w1 with
      | (r2, _, t2) =>
          r1 = Raise (EricError 610001001 None)
          ∧ r2 = Raise (EricError 610001001 None)
          ∧ count is_shutdown (t1 ++ t2) = 2%nat
      end
  end.
Proof. vm_compute. repeat split. Qed.

(** The Result of a healthy validation carries code 0. *)
Lemma returned_result_has_code_zero_witness :
  match validation healthy with
  | (Ok res, _, _) => code res = 0%Z
  | _ => False
  end.
Proof.
  destruct (validation healthy) as [[[res|e] w'] t] eqn:Hrun.
  - exact (returned_result_has_code_zero
             ascii_runtime eric_types (scripted healthy)
             (lit "<Elster/>") (lit "UStVA_2020") None (AsStr [])
             None None (fresh healthy true) res w' t (or_introl Hrun)).
  - vm_compute in Hrun. discriminate Hrun.
Defined.

(** A submission that continues transfer 5 reads back the handle the
    engine stored. *)
Lemma transfer_handle_only_when_supplied_witness :
  match submission healthy (Some 5%Z) with
  | (Ok res, _, t) =>
      ∃ call b1 b2 vt st tout,
        In (E_EricBearbeiteVorgang call b1 b2 (Returned 0 vt st tout)) t
        ∧ call_transfer call = Some (EricTransferHandle eric_types 5)
        ∧ transfer_handle res = Some tout
  | _ => False
  end.
Proof.
  destruct (submission healthy (Some 5%Z)) as [[[res|e] w'] t] eqn:Hrun.
  - exact (proj2 (transfer_handle_only_when_supplied
                    ascii_runtime eric_types (scripted healthy)
                    (lit "<Elster/>") (lit "UStVA_2020") None
                    (AsStr (lit "/etc/eric/cert.pfx")) (Some (lit "123456"))
                    (fresh healthy true)) 5%Z res w' t Hrun).
  - vm_compute in Hrun. discriminate Hrun.
Defined.

(** A rejected validation has allocated two buffers and freed both. *)
Lemma buffers_bracket_the_transaction_witness :
  match validation rejecting with
  | (_, _, t) =>
      (∃ call reply, In (E_EricBearbeiteVorgang call 0 1 reply) t)
      ∧ count is_create_buffer t = 2%nat ∧ count is_free_buffer t = 2%nat
      ∧ created t = [0%N; 1%N] ∧ freed t = [0%N; 1%N]
  end.
Proof.
  destruct (validation rejecting) as [[r w'] t] eqn:Hrun.
  assert (Hin : ∃ call reply, In (E_EricBearbeiteVorgang call 0 1 reply) t).
  { vm_compute in Hrun. injection Hrun as <- <- <-.
    do 2 eexists. right. right. left. reflexivity. }
  split; [exact Hin|]. destruct Hin as (call & reply & Hin).
  destruct (proj1 (buffers_bracket_the_transaction
                     ascii_runtime eric_types (scripted rejecting)
                     (lit "<Elster/>") (lit "UStVA_2020") None (AsStr [])
                     None None (fresh rejecting true) r w' t
                     (or_introl Hrun)) call 0%N 1%N reply Hin)
    as (_ & Hc & Hf & Hcreated & Hfreed & _).
  repeat split; assumption.
Defined.

(** The claim C6 fails where the certificate cannot be acquired: send
    raises without having allocated any buffer. *)
Lemma no_buffers_without_certificate :
  match submission no_certificate None with
  | (r, _, t) =>
      r = Raise (EricError 610001015 (Some (lit "bad pin")))
      ∧ count is_create_buffer t = 0%nat
      ∧ count is_free_buffer t = 0%nat
  end.
Proof. vm_compute. repeat split. Qed.


(* ===================================================================== *)
(** * More about the version registry *)
(* ===================================================================== *)

Section DetectFacts.
Context (rt : Runtime).

Lemma scan_app (a b : list str) :
  scan rt (a ++ b) =
    match scan rt a with
    | Some v => Some v
    | None => scan rt b
    end.
Proof.
  induction a as [|n a IH]; [done|].
  simpl. by destruct (search rt pattern n).
Qed.

Lemma scan_found (names : list str) (v : str) :
  scan rt names = Some v ->
  ∃ near n far,
    names = near ++ n :: far
    ∧ Forall (fun c => ¬ has_version rt c) near
    ∧ search rt pattern n = Some v.
Proof.
  induction names as [|n names IH]; simpl; [discriminate|].
  destruct (search rt pattern n) as [m|] eqn:Hs.
  - intros [= <-]. by exists [], n, names.
  - intros H. destruct (IH H) as (near & n' & far & -> & Hnear & Hn').
    exists (n :: near), n', far. split; [done|]. split; [|done].
    constructor; [|done]. intros Hv. apply has_version_search in Hv.
    rewrite Hs in Hv. by destruct Hv.
Qed.

Lemma search_cons (p : list item) (c : N) (s : str) :
  search rt p (c :: s) =
    match match_here rt p (c :: s) with
    | Some m => Some m
    | None => search rt p s
    end.
Proof. reflexivity. Qed.

(** The last [\d+] of a pattern takes every digit there is. *)
Lemma match_digits_takes_all (k : str -> option str) (s m post : str) :
  (∀ x, k x = Some []) ->
  match_digits rt k s = Some m ->
  s = m ++ post ->
  match post with
  | c :: _ => is_digit rt c = false
  | [] => True
  end.
Proof.
  intros Hk. revert m.
  induction s as [|c s IH]; intros m; simpl; [discriminate|].
  destruct (is_digit rt c) eqn:Hc; [|discriminate].
  destruct (match_digits rt k s) as [m0|] eqn:Hrec.
  - intros [= <-] [= Hs]. by apply (IH m0).
  - rewrite Hk. simpl. intros [= <-] [= Hs]. subst s.
    destruct post as [|d post]; [done|].
    simpl in Hrec. destruct (is_digit rt d); [|done].
    destruct (match_digits rt k post); [done|]. by rewrite Hk in Hrec.
Qed.

Lemma match_here_takes_all (p : list item) :
  ends_with_digits p = true ->
  ∀ s m post,
    match_here rt p s = Some m ->
    s = m ++ post ->
    match post with
    | c :: _ => is_digit rt c = false
    | [] => True
    end.
Proof.
  induction p as [|[|c] p IH]; intros Hend s m post; [done| |].
  - destruct p as [|i p].
    + by apply match_digits_takes_all.
    + intros H Hs. simpl in H. apply match_digits_sound in H.
      destruct H as (d & m' & s' & _ & -> & -> & Hk).
      rewrite <- app_assoc in Hs. apply app_inv_head in Hs.
      by apply (IH Hend s' m' post).
  - simpl. destruct s as [|x s]; [discriminate|].
    destruct (N.eqb_spec x c) as [->|]; [|discriminate].
    destruct (match_here rt p s) as [m0|] eqn:Hrec; simpl; [|discriminate].
    intros [= <-] [= Hs].
    assert (Hend' : ends_with_digits p = true) by (by destruct p).
    by apply (IH Hend' s m0 post).
Qed.

(** X1: whatever detect_eric_version returns is a string of four numeric
    groups separated by dots, hence never empty, and it is the match the
    search finds in a name of the resolved path all of whose nearer names
    contain no version. *)
Theorem detected_version_comes_from_nearest_name
    (fs : FileSystem) (home : Path) (v : str) :
  detect_eric_version rt fs home = Some v ->
  is_version rt v ∧ v ≠ []
  ∧ ∃ near n far,
      rev (parts (resolve fs home)) = near ++ n :: far
      ∧ Forall (fun c => ¬ has_version rt c) near
      ∧ search rt pattern n = Some v
      ∧ substring v n.
Proof.
  unfold detect_eric_version. rewrite detect_loop_scan. intros H.
  pose proof (scan_version _ _ _ H) as Hv.
  split; [done|]. split; [by apply is_version_nonempty in Hv|].
  apply scan_found in H as (near & n & far & Heq & Hnear & Hn).
  exists near, n, far. repeat split; try done.
  by apply search_version in Hn as [_ ?].
Qed.

(** X2: within a name the search returns the leftmost version: no version
    starts at an earlier position; and the match is not followed by a
    further digit (the last group takes all the digits there are). *)
Theorem search_is_leftmost_and_greedy (n v : str) :
  search rt pattern n = Some v ->
  ∃ pre post,
    n = pre ++ v ++ post
    ∧ (∀ pre1 pre2 u rest,
         pre = pre1 ++ pre2 -> pre2 ≠ [] -> is_version rt u ->
         pre2 ++ v ++ post ≠ u ++ rest)
    ∧ match post with
      | c :: _ => is_digit rt c = false
      | [] => True
      end.
Proof.
  revert v. induction n as [|c n IH]; intros v; [discriminate|].
  rewrite search_cons.
  destruct (match_here rt pattern (c :: n)) as [m|] eqn:H0.
  -
 intros [= <-]. destruct (match_here_sound _ _ _ _ H0) as [_ [post Hpost]].
    exists [], post. split; [done|]. split.
    + intros pre1 pre2 u rest Hpre Hne. by destruct pre1, pre2.
    + by apply (match_here_takes_all pattern eq_refl (c :: n) m post).
  - intros H. destruct (IH v H) as (pre & post & -> & Hleft & Hpost).
    exists (c :: pre), post. split; [done|]. split; [|done].
    intros pre1 pre2 u rest Hpre Hne Hu Heq.
    destruct pre1 as [|c' pre1]; simpl in Hpre.
    + subst pre2. simpl in Heq.
      apply denotes_pattern in Hu.
      destruct (match_here_complete rt pattern u Hu rest) as [m Hm].
      rewrite <- Heq in Hm. congruence.
    + injection Hpre as -> ->. by eapply Hleft.
Qed.

(** X3: names nearer to the leaf take precedence over the names above
    them: the scan of a path is the scan of its lower part when that
    finds a version, and the scan of the upper part otherwise; the anchor
    plays no role. *)
Theorem detect_prefers_deeper_names (r r' : str) (upper lower : list str) :
  detect_loop rt (mkPath r (upper ++ lower)) =
    match detect_loop rt (mkPath r' lower) with
    | Some v => Some v
    | None => detect_loop rt (mkPath r' upper)
    end.
Proof.
  rewrite !detect_loop_scan. simpl. by rewrite rev_app_distr, scan_app.
Qed.

End DetectFacts.

(** X4: the registry is consistent: an identifier is supported exactly
    when it is listed, every supported identifier has a configuration
    that carries that identifier, no other identifier has one, and the
    default identifier is supported. *)
Theorem registry_is_consistent (v : str) :
  (is_supported_version v = true ↔ In v list_supported_versions)
  ∧ (is_supported_version v = true ->
     ∃ config, VERSION_CONFIGS !! v = Some config ∧ eric_version config = v)
  ∧ (is_Some (VERSION_CONFIGS !! v) -> is_supported_version v = true)
  ∧ is_supported_version DEFAULT_ERIC_VERSION = true.
Proof.
  unfold is_supported_version, list_supported_versions,
    SUPPORTED_ERIC_VERSIONS, VERSION_CONFIGS.
  rewrite bool_decide_eq_true, list_elem_of_In.
  split; [done|]. split; [|split; [|done]].
  - intros [<-|[]]. eexists. split; [apply lookup_singleton_eq|done].
  - intros [config H]. apply lookup_singleton_Some in H as [<- _]. by left.
Qed.

(* ===================================================================== *)
(** * The loader *)
(* ===================================================================== *)

Section LoaderFacts.
Context (env : gmap (list N) (list N)) (fs : FileSystem) (faults : Faults)
  (disk : Disk) (linker : Linker).

(** The only argument that is neither absent nor true is the empty
    string. *)
Lemma arg_falsy (a : PathArg) : arg_truthy a = false -> a = AsStr [].
Proof. by destruct a as [[|c s]|p]. Qed.

(** The root that is resolved is the argument when it is true, else
    ERIC_HOME. *)
Lemma _resolve_home_cases (eric_home : option PathArg) :
  _resolve_home env fs faults eric_home =
    match or_opt arg_truthy eric_home (AsStr <$> env !! lit "ERIC_HOME") with
    | Some a => resolved fs faults (Path_of a)
    | None =>
        match eric_home with
        | None => Raise (EricLibraryLoadError no_home_message)
        | Some _ => Raise TypeError
        end
    end.
Proof.
  unfold _resolve_home, or_opt.
  destruct eric_home as [a|]; destruct (env !! lit "ERIC_HOME") as [h|];
    simpl; try destruct (arg_truthy a); reflexivity.
Qed.

(** How the installation root fails to resolve. *)
Lemma _resolve_home_raises (eric_home : option PathArg) (e : exn) :
  _resolve_home env fs faults eric_home = Raise e ->
  (e = EricLibraryLoadError no_home_message
   ∧ eric_home = None ∧ env !! lit "ERIC_HOME" = None)
  ∨ (e = TypeError
     ∧ eric_home = Some (AsStr []) ∧ env !! lit "ERIC_HOME" = None)
  ∨ (∃ a, or_opt arg_truthy eric_home (AsStr <$> env !! lit "ERIC_HOME")
          = Some a
          ∧ resolve_fault faults (Path_of a) = Some e).
Proof.
  rewrite _resolve_home_cases. unfold resolved.
  destruct (or_opt _ _ _) as [a|] eqn:Ha.
  - destruct (resolve_fault faults (Path_of a)) as [e'|] eqn:He; [|done].
    intros [= <-]. right. right. by exists a.
  - unfold or_opt in Ha.
    destruct eric_home as [a|]; destruct (env !! lit "ERIC_HOME") as [h|];
      simpl in Ha; try destruct (arg_truthy a) eqn:Hta; try discriminate.
    + intros [= <-]. right. left. by rewrite (arg_falsy a Hta).
    + intros [= <-]. by left.
Qed.

(** Appending the two names of a library to a root. *)
Lemma library_path (home : Path) (directory file : str) :
  root (Path_of_str directory) = [] ->
  root (Path_of_str file) = [] ->
  truediv (truediv home directory) file =
    mkPath (root home)
      (parts home ++ parts (Path_of_str directory) ++ parts (Path_of_str file)).
Proof.
  intros Hd Hf. unfold truediv. rewrite Hd, Hf. simpl.
  by rewrite <- app_assoc.
Qed.

Lemma _load_shared_library_outcomes (path : Path) :
  (∀ library,
     _load_shared_library faults disk linker path = Ok library ->
     exists_fault faults path = None
     ∧ path_exists disk path = true
     ∧ CDLL linker (Path_str path) (RTLD_GLOBAL linker) = inr library)
  ∧ (∀ e, exists_fault faults path = Some e ->
          _load_shared_library faults disk linker path = Raise e)
  ∧ (exists_fault faults path = None ->
     path_exists disk path = false ->
     _load_shared_library faults disk linker path =
       Raise (EricLibraryLoadError (missing_message path)))
  ∧ (∀ exc,
       exists_fault faults path = None ->
       path_exists disk path = true ->
       CDLL linker (Path_str path) (RTLD_GLOBAL linker) = inl exc ->
       _load_shared_library faults disk linker path =
         Raise (EricLibraryLoadError (failed_message path exc)))
  ∧ (∀ library,
       exists_fault faults path = None ->
       path_exists disk path = true ->
       CDLL linker (Path_str path) (RTLD_GLOBAL linker) = inr library ->
       _load_shared_library faults disk linker path = Ok library).
Proof.
  unfold _load_shared_library.
  destruct (exists_fault faults path) as [e0|];
    [|destruct (path_exists disk path); simpl;
      [destruct (CDLL linker _ _) as [exc0|library0]|]];
    repeat split; try done; try congruence.
Qed.

(** X5: load_ericapi looks below the installation root, which is
    eric_plugin_path's, for the file lib/libericapi.so.  An exception of
    exists() on that path is not caught and propagates unchanged; a file
    that does not exist is reported with an EricLibraryLoadError that
    names it, whatever the dynamic loader would do; a file that exists
    is handed to the dynamic loader with RTLD_GLOBAL, whose OSError is
    wrapped into an EricLibraryLoadError carrying the path and its text,
    and whose library is returned.  So a library is returned only when
    the root resolved, exists() returned true and the loader delivered
    it.  What the resolution of the root raises propagates unchanged:
    the missing-home EricLibraryLoadError when neither eric_home nor
    ERIC_HOME is given, TypeError for an empty eric_home with no
    ERIC_HOME, and whatever expanduser().resolve() raises. *)
Theorem load_ericapi_outcomes (eric_home : option PathArg) :
  let lib_of (home : Path) :=
    mkPath (root home) (parts home ++ [lit "lib"; lit "libericapi.so"]) in
  let load := load_ericapi env fs faults disk linker eric_home in
  (∀ library,
     load = Ok library ->
     ∃ home,
       eric_plugin_path env fs faults eric_home = Ok home
       ∧ exists_fault faults (lib_of home) = None
       ∧ path_exists disk (lib_of home) = true
       ∧ CDLL linker (Path_str (lib_of home)) (RTLD_GLOBAL linker)
         = inr library)
  ∧ (∀ home,
       eric_plugin_path env fs faults eric_home = Ok home ->
       (∀ e, exists_fault faults (lib_of home) = Some e -> load = Raise e)
       ∧ (exists_fault faults (lib_of home) = None ->
          path_exists disk (lib_of home) = false ->
          load = Raise (EricLibraryLoadError (missing_message (lib_of home))))
       ∧ (∀ exc,
            exists_fault faults (lib_of home) = None ->
            path_exists disk (lib_of home) = true ->
            CDLL linker (Path_str (lib_of home)) (RTLD_GLOBAL linker)
            = inl exc ->
            load = Raise (EricLibraryLoadError
                            (failed_message (lib_of home) exc)))
       ∧ (∀ library,
            exists_fault faults (lib_of home) = None ->
            path_exists disk (lib_of home) = true ->
            CDLL linker (Path_str (lib_of home)) (RTLD_GLOBAL linker)
            = inr library ->
            load = Ok library))
  ∧ (∀ e, eric_plugin_path env fs faults eric_home = Raise e ->
          load = Raise e)
  ∧ (eric_home = None -> env !! lit "ERIC_HOME" = None ->
     load = Raise (EricLibraryLoadError no_home_message))
  ∧ (eric_home = Some (AsStr []) -> env !! lit "ERIC_HOME" = None ->
     load = Raise TypeError)
  ∧ (∀ a e,
       or_opt arg_truthy eric_home (AsStr <$> env !! lit "ERIC_HOME")
       = Some a ->
       resolve_fault faults (Path_of a) = Some e ->
       load = Raise e).
Proof.
  cbv zeta. unfold load_ericapi, eric_plugin_path.
  split; [|split; [|split; [|split; [|split]]]].
  - destruct (_resolve_home env fs faults eric_home) as [home|e0]; [|done].
    rewrite (library_path home (lit "lib") (lit "libericapi.so")
               eq_refl eq_refl).
    intros library H. exists home. split; [done|].
    by apply _load_shared_library_outcomes.
  - intros home ->.
    rewrite (library_path home (lit "lib") (lit "libericapi.so")
               eq_refl eq_refl).
    destruct (_load_shared_library_outcomes
                (mkPath (root home)
                   (parts home ++ [lit "lib"; lit "libericapi.so"])))
      as (_ & H1 & H2 & H3 & H4).
    by repeat split.
  - by intros e ->.
  - intros -> Henv. rewrite _resolve_home_cases. simpl. by rewrite Henv.
  - intros -> Henv. rewrite _resolve_home_cases. simpl. by rewrite Henv.
  - intros a e Ha He. rewrite _resolve_home_cases, Ha.
    unfold resolved. by rewrite He.
Qed.

(** X6: load_erictoolkit does the same for the file
    erictoolkit/liberictoolkit.so below the same installation root, and
    when the resolution of the root raises, eric_plugin_path, load_ericapi
    and load_erictoolkit all raise that same exception: nothing is looked
    up or loaded then. *)
Theorem loaders_share_the_installation_root (eric_home : option PathArg) :
  let lib_of (home : Path) :=
    mkPath (root home)
      (parts home ++ [lit "erictoolkit"; lit "liberictoolkit.so"]) in
  let load := load_erictoolkit env fs faults disk linker eric_home in
  (∀ library,
     load = Ok library ->
     ∃ home,
       eric_plugin_path env fs faults eric_home = Ok home
       ∧ exists_fault faults (lib_of home) = None
       ∧ path_exists disk (lib_of home) = true
       ∧ CDLL linker (Path_str (lib_of home)) (RTLD_GLOBAL linker)
         = inr library)
  ∧ (∀ home,
       eric_plugin_path env fs faults eric_home = Ok home ->
       (∀ e, exists_fault faults (lib_of home) = Some e -> load = Raise e)
       ∧ (exists_fault faults (lib_of home) = None ->
          path_exists disk (lib_of home) = false ->
          load = Raise (EricLibraryLoadError (missing_message (lib_of home))))
       ∧ (∀ exc,
            exists_fault faults (lib_of home) = None ->
            path_exists disk (lib_of home) = true ->
            CDLL linker (Path_str (lib_of home)) (RTLD_GLOBAL linker)
            = inl exc ->
            load = Raise (EricLibraryLoadError
                            (failed_message (lib_of home) exc)))
       ∧ (∀ library,
            exists_fault faults (lib_of home) = None ->
            path_exists disk (lib_of home) = true ->
            CDLL linker (Path_str (lib_of home)) (RTLD_GLOBAL linker)
            = inr library ->
            load = Ok library))
  ∧ (∀ e,
       eric_plugin_path env fs faults eric_home = Raise e ->
       load_ericapi env fs faults disk linker eric_home = Raise e
       ∧ load = Raise e).
Proof.
  cbv zeta. unfold load_ericapi, load_erictoolkit, eric_plugin_path.
  split; [|split].
  - destruct (_resolve_home env fs faults eric_home) as [home|e0]; [|done].
    rewrite (library_path home (lit "erictoolkit") (lit "liberictoolkit.so")
               eq_refl eq_refl).
    intros library H. exists home. split; [done|].
    by apply _load_shared_library_outcomes.
  - intros home ->.
    rewrite (library_path home (lit "erictoolkit") (lit "liberictoolkit.so")
               eq_refl eq_refl).
    destruct (_load_shared_library_outcomes
                (mkPath (root home)
                   (parts home
                    ++ [lit "erictoolkit"; lit "liberictoolkit.so"])))
      as (_ & H1 & H2 & H3 & H4).
    by repeat split.
  - by intros e ->.
Qed.

End LoaderFacts.

(* ===================================================================== *)
(** * More about the facade *)
(* ===================================================================== *)

(** Run a computation symbolically: case analysis on every encoding and
    on every answer of the engine. *)
Ltac crunch :=
  repeat (cbn;
    match goal with
    | |- context [pdf_arg ?x] => destruct (pdf_arg x) eqn:?
    | |- context [utf8_encode ?x] => destruct (utf8_encode x) eqn:?
    | |- context [eng_process ?E ?c ?s] =>
        destruct (eng_process E c s) as [[] ?]
    | |- context [eng_error_text ?E ?c ?s] =>
        destruct (eng_error_text E c s) as [? ?]
    | |- context [eng_get_certificate ?E ?p ?q ?s] =>
        destruct (eng_get_certificate E p q s) as [[[? ?] ?] ?]
    | |- context [eng_close_certificate ?E ?h ?s] =>
        destruct (eng_close_certificate E h s) as [? ?]
    | |- context [eng_shutdown ?E ?s] =>
        destruct (eng_shutdown E s) as [? ?]
    | |- context [eng_init ?E ?h ?l ?s] =>
        destruct (eng_init E h l s) as [? ?]
    | |- context [(?rc =? 0)%Z] =>
        destruct (Z.eqb_spec rc 0); [subst rc|]
    | |- context [match ?o with Some _ => _ | None => _ end] =>
        is_var o; destruct o
    end).

Ltac unfold_facade :=
  unfold validate_xml, send_xml, _build_print_params, _load_certificate,
    _build_crypto_params, _process, with_client, __enter__, __exit__,
    initialize, mkdir, close in *;
  unfold_run.

Section Frames.
Context (rt : Runtime) (ty : Types) (E : Engine).

(** Freeing two fresh buffers gives back the store there was before they
    were allocated, whether or not the engine wrote to them. *)
Lemma freed_store (bs : gmap N (list byte)) (b : N) (f g : list byte -> list byte) :
  bs !! b = None -> bs !! N.succ b = None ->
  delete (N.succ b) (delete b (<[N.succ b := []]> (<[b := []]> bs))) = bs
  ∧ delete (N.succ b)
      (delete b (alter g (N.succ b)
                   (alter f b (<[N.succ b := []]> (<[b := []]> bs))))) = bs.
Proof.
  intros H1 H2. split; apply map_eq; intros i;
    rewrite ?lookup_delete, ?lookup_alter, ?lookup_insert;
    repeat case_decide; subst; simpl; congruence.
Qed.

Lemma fresh_slots (w : World E) :
  buffers_fresh w ->
  buffers w !! next_buffer w = None
  ∧ buffers w !! N.succ (next_buffer w) = None.
Proof.
  intros Hfresh. split.
  - destruct (buffers w !! next_buffer w) eqn:H; [|done].
    assert (next_buffer w < next_buffer w)%N by (apply Hfresh; eauto). lia.
  - destruct (buffers w !! N.succ (next_buffer w)) eqn:H; [|done].
    assert (N.succ (next_buffer w) < next_buffer w)%N
      by (apply Hfresh; eauto).
    lia.
Qed.

(** X7: validate_xml and send_xml leave the session object as it was,
    and they leak no buffer: in a store where buffer numbers are handed
    out in increasing order, the allocated buffers after the call are
    exactly those before it, on every exit path, and the order is kept. *)
Theorem operations_leak_no_buffer
    xml dav pdf cert pn th (w : World E) r w' t :
  validate_xml rt ty E xml dav pdf w = (r, w', t)
  ∨ send_xml rt ty E xml dav cert pn pdf th w = (r, w', t) ->
  self w' = self w
  ∧ (buffers_fresh w -> buffers w' = buffers w ∧ buffers_fresh w').
Proof.
  assert (Hkeep : ∀ w1 : World E,
            buffers_fresh w -> buffers w1 = buffers w ->
            (next_buffer w <= next_buffer w1)%N -> buffers_fresh w1).
  { intros w1 Hfresh Hb Hn b Hsome. rewrite Hb in Hsome.
    apply Hfresh in Hsome. lia. }
  intros [H|H]; revert H; unfold_facade; crunch; intros [= <- <- <-]; cbn;
    (split; [reflexivity|]); intros Hfresh;
    destruct (fresh_slots w Hfresh) as [H1 H2];
    destruct (freed_store (buffers w) (next_buffer w)
                (fun old => old ++ validation_text)
                (fun old => old ++ server_text) H1 H2) as [Hplain Halter]
    || destruct (freed_store (buffers w) (next_buffer w) id id H1 H2)
         as [Hplain Halter];
    (split; [first [reflexivity | exact Hplain | exact Halter]|]);
    apply Hkeep; cbn; first [done | exact Hplain | exact Halter | lia].
Qed.

(** X8: neither operation consults the session object: run on a world
    that differs only in the session (for instance one that was never
    initialized), it makes the same calls and has the same outcome. *)
Theorem operations_ignore_the_session
    xml dav pdf cert pn th (c : EricClient) (w : World E) :
  validate_xml rt ty E xml dav pdf (with_self c w) =
    (let '(r, w', t) := validate_xml rt ty E xml dav pdf w in
     (r, with_self c w', t))
  ∧ send_xml rt ty E xml dav cert pn pdf th (with_self c w) =
      (let '(r, w', t) := send_xml rt ty E xml dav cert pn pdf th w in
       (r, with_self c w', t)).
Proof.
  split; unfold_facade; unfold with_self; crunch; reflexivity.
Qed.

End Frames.

Section Sessions.
Context (rt : Runtime) (ty : Types) (E : Engine) (faults : Faults).

(** X9: initialize() first creates the log directory.  An exception of
    mkdir (the log directory is an existing file, say) is not caught:
    it propagates, the engine's init is not called and nothing has
    changed.  Otherwise the engine's init is called exactly once,
    whatever state the session is in: when it returns 0 the session is
    Initialized and nothing else about it has changed; when it returns
    another code, EricError with that code and the engine's text is
    raised and the session object is left exactly as it was.  No buffer
    is touched. *)
Theorem initialize_sets_the_flag_on_success (w : World E) r w' t :
  initialize E faults w = (r, w', t) ->
  buffers w' = buffers w ∧ next_buffer w' = next_buffer w
  ∧ (∀ e, mkdir_fault faults (log_dir (self w)) = Some e ->
          r = Raise e ∧ t = [] ∧ w' = w)
  ∧ (mkdir_fault faults (log_dir (self w)) = None ->
     ∃ rc text,
       t = [E_mkdir (log_dir (self w));
            E_init_eric (eric_home (self w)) (log_dir (self w)) rc;
            E_get_error_text rc text]
       ∧ ((rc = 0%Z ∧ r = Ok tt ∧ self w' = set_initialized (self w) true)
          ∨ (rc ≠ 0%Z ∧ r = Raise (EricError rc text) ∧ self w' = self w))).
Proof.
  unfold_facade.
  destruct (mkdir_fault faults (log_dir (self w))) as [e0|]; cbn.
  { intros [= <- <- <-]. split; [done|]. split; [done|].
    split; [by intros e [= <-]|done]. }
  destruct (eng_init E (eric_home (self w)) (log_dir (self w)) (eng w))
    as [rc s1]; cbn.
  destruct (eng_error_text E rc s1) as [text s2]; cbn.
  destruct (Z.eqb_spec rc 0) as [->|Hrc]; cbn; intros [= <- <- <-]; cbn;
    (split; [done|]); (split; [done|]); (split; [done|]); intros _.
  - exists 0%Z, text. split; [done|]. left. by repeat split.
  - exists rc, text. split; [done|]. right. by repeat split.
Qed.

(** Neither operation changes the session object. *)
Lemma operations_keep_self xml dav pdf cert pn th (w : World E) r w' t :
  validate_xml rt ty E xml dav pdf w = (r, w', t)
  ∨ send_xml rt ty E xml dav cert pn pdf th w = (r, w', t) ->
  self w' = self w.
Proof.
  intros [H|H]; revert H; unfold_facade; crunch; by intros [= <- <- <-].
Qed.

(** X10: in [with client: body], for a body that leaves the session
    object alone: when mkdir raises, its exception is the outcome, and
    neither init, nor the body, nor shutdown is run; when init fails the
    body is not run and the engine is not shut down; when init succeeds
    the body runs once, in an Initialized session, and the engine is shut
    down exactly once after it, whether the body returns or raises.  The
    outcome is that of the body when shutdown returns 0; when shutdown
    returns another code its EricError is the outcome, even if the body
    had raised, and the session stays Initialized. *)
Theorem with_client_brackets_the_body {A} (body : M (World E) A)
    (w : World E) r w' t :
  (∀ w1 r1 w2 t1, body w1 = (r1, w2, t1) -> self w2 = self w1) ->
  with_client E faults body w = (r, w', t) ->
  (∀ e, mkdir_fault faults (log_dir (self w)) = Some e ->
        r = Raise e ∧ t = [] ∧ w' = w)
  ∧ (mkdir_fault faults (log_dir (self w)) = None ->
     ∃ rc0 text0,
       let entered :=
         [E_mkdir (log_dir (self w));
          E_init_eric (eric_home (self w)) (log_dir (self w)) rc0;
          E_get_error_text rc0 text0] in
       (rc0 ≠ 0%Z ∧ r = Raise (EricError rc0 text0) ∧ t = entered
        ∧ self w' = self w)
       ∨ (rc0 = 0%Z
          ∧ ∃ w1 rb wb tb rc text,
              _initialized (self w1) = true
              ∧ body w1 = (rb, wb, tb)
              ∧ t = entered ++ tb
                    ++ [E_shutdown_eric rc; E_get_error_text rc text]
              ∧ ((rc = 0%Z ∧ r = rb ∧ _initialized (self w') = false)
                 ∨ (rc ≠ 0%Z ∧ r = Raise (EricError rc text)
                    ∧ _initialized (self w') = true)))).
Proof.
  intros Hbody. unfold_facade.
  destruct (mkdir_fault faults (log_dir (self w))) as [e0|]; cbn.
  { intros [= <- <- <-]. split; [by intros e [= <-]|done]. }
  destruct (eng_init E (eric_home (self w)) (log_dir (self w)) (eng w))
    as [rc0 s1]; cbn.
  destruct (eng_error_text E rc0 s1) as [text0 s2]; cbn.
  destruct (Z.eqb_spec rc0 0) as [->|Hrc0]; cbn.
  2: { intros [= <- <- <-]. split; [done|]. intros _.
       exists rc0, text0. left. by repeat split. }
  match goal with
  | |- context [body ?w1] =>
      destruct (body w1) as [[rb wb] tb] eqn:Hb;
      pose proof (Hbody _ _ _ _ Hb) as Hself; cbn in Hself
  end.
  rewrite Hself. cbn.
  destruct (eng_shutdown E (eng wb)) as [rc s3]; cbn.
  destruct (eng_error_text E rc s3) as [text s4]; cbn.
  destruct (Z.eqb_spec rc 0) as [->|Hrc]; cbn; intros [= <- <- <-];
    (split; [done|]); intros _;
    exists 0%Z, text0; right; (split; [done|]); do 6 eexists;
    (split; [|split; [exact Hb|]]); cbn; try done;
    (split; [reflexivity|]); [left|right]; cbn; rewrite ?Hself;
    by repeat split.
Qed.

(** X11: what validate_xml hands to the engine: the UTF-8 bytes of the
    document and of the data kind version, no crypto parameters and a
    null transfer pointer; without a PDF path (none, or an empty one) no
    print parameters and the validate flag alone; with a PDF path print
    parameters in preview mode that name the file, and the validate and
    print flags. *)
Theorem validate_xml_call xml dav pdf (w : World E) r w' t call b1 b2 reply :
  validate_xml rt ty E xml dav pdf w = (r, w', t) ->
  In (E_EricBearbeiteVorgang call b1 b2 reply) t ->
  utf8_encode xml = Some (call_xml call)
  ∧ utf8_encode dav = Some (call_datenart_version call)
  ∧ call_crypto_params call = None
  ∧ call_transfer call = None
  ∧ ((pdf = None ∨ pdf = Some (AsStr [])) ->
     call_print_params call = None
     ∧ call_flags call = c_uint32 (ERIC_VALIDIERE ty))
  ∧ (∀ a, pdf = Some a -> arg_truthy a = true ->
       ∃ name,
         utf8_encode (Path_str (Path_of a)) = Some name
         ∧ call_print_params call =
             Some {| vorschau := 1; ersteSeite := 0; duplexDruck := 0;
                     pdfName := name; fussText := None;
                     pdfCallbackBenutzerdaten := None |}
         ∧ call_flags call =
             c_uint32 (Z.lor (ERIC_VALIDIERE ty) (ERIC_DRUCKE ty))).
Proof.
  unfold validate_xml, _build_print_params, _process. unfold_run.
  unfold pdf_arg.
  destruct pdf as [a|]; [destruct (arg_truthy a) eqn:Ha|];
    crunch; intros [= <- <- <-] Hin; which_event Hin;
    injection Hin as <- <- <- <-; cbn;
    (do 4 (split; [done|])); split;
    try (intros [Hp|Hp]; try discriminate Hp;
         try (injection Hp as ->; discriminate Ha); done);
    try (intros a' Hp; try discriminate Hp; injection Hp as <-;
         intros Ha'; try congruence; by eexists).
Qed.

(** X12: what send_xml hands to the engine: the UTF-8 bytes of the
    document and of the data kind version, the transfer cell of the
    caller, and crypto parameters that carry the handle the engine issued
    for the certificate file and the encoded PIN; the flags are validate
    and send, plus print with non-preview print parameters when a PDF
    path is given. *)
Theorem send_xml_call xml dav cert pn pdf th (w : World E) r w' t
    call b1 b2 reply :
  send_xml rt ty E xml dav cert pn pdf th w = (r, w', t) ->
  In (E_EricBearbeiteVorgang call b1 b2 reply) t ->
  utf8_encode xml = Some (call_xml call)
  ∧ utf8_encode dav = Some (call_datenart_version call)
  ∧ call_transfer call = transfer_cell ty th
  ∧ (∃ path secret handle info,
       In (E_EricGetHandleToCertificate path secret 0 handle info) t
       ∧ utf8_encode (Path_str (Path_of cert)) = Some path
       ∧ match pn with
         | Some x => ∃ bs, utf8_encode x = Some bs ∧ secret = Some bs
         | None => secret = None
         end
       ∧ call_crypto_params call =
           Some {| zertifikatHandle := handle; pin := secret;
                   abrufCode := None |})
  ∧ ((pdf = None ∨ pdf = Some (AsStr [])) ->
     call_print_params call = None
     ∧ call_flags call =
         c_uint32 (Z.lor (ERIC_VALIDIERE ty) (ERIC_SENDE ty)))
  ∧ (∀ a, pdf = Some a -> arg_truthy a = true ->
       ∃ name,
         utf8_encode (Path_str (Path_of a)) = Some name
         ∧ call_print_params call =
             Some {| vorschau := 0; ersteSeite := 0; duplexDruck := 0;
                     pdfName := name; fussText := None;
                     pdfCallbackBenutzerdaten := None |}
         ∧ call_flags call =
             c_uint32 (Z.lor (Z.lor (ERIC_VALIDIERE ty) (ERIC_SENDE ty))
                         (ERIC_DRUCKE ty))).
Proof.
  unfold send_xml, _build_print_params, _load_certificate,
    _build_crypto_params, _process.
  unfold_run. unfold pdf_arg, transfer_cell.
  destruct pdf as [a|]; [destruct (arg_truthy a) eqn:Ha|];
    crunch; intros [= <- <- <-] Hin; which_event Hin;
    injection Hin as <- <- <- <-; cbn;
    (do 3 (split; [done|])); (split; [|split]);
    try (do 4 eexists; split; [left; reflexivity|];
         split; [done|]; split; [by eauto|done]);
    try (intros [Hp|Hp]; try discriminate Hp;
         try (injection Hp as ->; discriminate Ha); done);
    try (intros a' Hp; try discriminate Hp; injection Hp as <-;
         intros Ha'; try congruence; by eexists).
Qed.

(** X13: a document or a data kind version that cannot be encoded as
    UTF-8 is noticed before anything is allocated or processed.
    validate_xml then raises UnicodeEncodeError without a single call and
    leaves the world as it was; send_xml makes no process_transaction
    call and allocates no buffer, and if it had already acquired the
    certificate it releases it as its last call and raises
    UnicodeEncodeError. *)
Theorem unencodable_text_reaches_no_transaction
    xml dav pdf cert pn th (w : World E) :
  utf8_encode xml = None ∨ utf8_encode dav = None ->
  (∀ r w' t,
     validate_xml rt ty E xml dav pdf w = (r, w', t) ->
     r = Raise UnicodeEncodeError ∧ t = [] ∧ w' = w)
  ∧ (∀ r w' t,
       send_xml rt ty E xml dav cert pn pdf th w = (r, w', t) ->
       count is_process t = 0%nat ∧ count is_create_buffer t = 0%nat
       ∧ (∃ e, r = Raise e)
       ∧ (∀ path secret handle info,
            In (E_EricGetHandleToCertificate path secret 0 handle info) t ->
            r = Raise UnicodeEncodeError
            ∧ ∃ rc text,
                t = [E_EricGetHandleToCertificate path secret 0 handle info;
                     E_get_error_text 0 text;
                     E_EricCloseHandleToCertificate handle rc])).
Proof.
  intros Hbad. split; intros r w' t; unfold_facade.
  - destruct Hbad as [Hbad|Hbad]; crunch; try congruence;
      intros [= <- <- <-]; by destruct w.
  - destruct Hbad as [Hbad|Hbad]; crunch; try congruence;
      intros [= <- <- <-]; cbn; (do 2 (split; [done|]));
      (split; [by eauto|]); intros * Hin; which_event Hin;
      injection Hin as; subst; try done; (split; [done|]); by eauto.
Qed.

End Sessions.

(* ===================================================================== *)
(** * More about the constructor *)
(* ===================================================================== *)

Section ConstructorFacts.
Context (rt : Runtime) (fs : FileSystem) (env : gmap (list N) (list N))
  (faults : Faults).

Lemma home_of_cases (eh : option PathArg) (home : Path) :
  home_of fs env faults eh = Ok home ->
  (∀ a, eh = Some a -> arg_truthy a = true -> home = Path_of a)
  ∧ ((eh = None ∨ eh = Some (AsStr [])) ->
     ∃ h, env !! lit "ERIC_HOME" = Some h
          ∧ resolve_fault faults (Path_of_str h) = None
          ∧ home = resolve fs (Path_of_str h)).
Proof.
  unfold home_of, eric_plugin_path, _resolve_home, or_opt, resolved.
  destruct eh as [a|]; [destruct (arg_truthy a) eqn:Ha|];
    destruct (env !! lit "ERIC_HOME") as [h|]; simpl;
    try destruct (resolve_fault faults (Path_of_str h)) eqn:Hf;
    try discriminate; intros [= <-]; split;
    try (intros a' [= <-] Ha'; congruence);
    try (intros a' [=]);
    try (intros [[=]|[= ->]]; discriminate Ha);
    try (intros _; by exists h).
Qed.

Lemma home_of_raises (eh : option PathArg) (e : exn) :
  home_of fs env faults eh = Raise e ->
  (eh = None ∨ eh = Some (AsStr []))
  ∧ ((e = EricLibraryLoadError no_home_message
      ∧ env !! lit "ERIC_HOME" = None)
     ∨ (∃ h, env !! lit "ERIC_HOME" = Some h
             ∧ resolve_fault faults (Path_of_str h) = Some e)).
Proof.
  unfold home_of, eric_plugin_path, _resolve_home, or_opt, resolved.
  destruct eh as [a|]; [destruct (arg_truthy a) eqn:Ha; [discriminate|]|];
    (split; [first [by left | right; by rewrite (arg_falsy a Ha)]|]);
    revert H; destruct (env !! lit "ERIC_HOME") as [h|]; simpl;
    try destruct (resolve_fault faults (Path_of_str h)) eqn:Hf;
    try discriminate; intros [= <-];
    first [left; by split | right; by exists h].
Qed.

Lemma print_lines_prints (lines : list str) :
  Forall (fun e => is_print e = true) (print_lines faults lines).2.
Proof.
  induction lines as [|line rest IH]; simpl; [constructor|].
  destruct (print_fault faults line); simpl; [constructor|].
  destruct (print_lines faults rest) as [r t']. simpl in *.
  by constructor.
Qed.

(** X14: all the constructor does besides computing is print.  The
    session it returns is not Initialized; its log directory is the one
    given, else the current directory; a given, non-empty eric_home is
    taken as it is, without resolving it and without looking at
    ERIC_HOME; otherwise the root is ERIC_HOME, expanded and resolved.
    When eric_home is absent or empty and ERIC_HOME is not set, the
    constructor raises the missing-home EricLibraryLoadError before any
    check and under every policy; when ERIC_HOME is set and expanding
    and resolving it raises, that exception propagates unchanged, again
    before any check. *)
Theorem constructor_outcomes eh ld ev r (t : list event) :
  __init__ rt fs env faults eh ld ev tt = (r, tt, t) ->
  Forall (fun e => is_print e = true) t
  ∧ (∀ c, r = Ok c ->
       _initialized c = false
       ∧ (∀ a, ld = Some a -> arg_truthy a = true -> log_dir c = Path_of a)
       ∧ ((ld = None ∨ ld = Some (AsStr [])) -> log_dir c = cwd fs)
       ∧ (∀ a, eh = Some a -> arg_truthy a = true ->
               eric_home c = Path_of a)
       ∧ ((eh = None ∨ eh = Some (AsStr [])) ->
          ∃ h, env !! lit "ERIC_HOME" = Some h
               ∧ resolve_fault faults (Path_of_str h) = None
               ∧ eric_home c = resolve fs (Path_of_str h)))
  ∧ ((eh = None ∨ eh = Some (AsStr [])) ->
     (env !! lit "ERIC_HOME" = None ->
      r = Raise (EricLibraryLoadError no_home_message) ∧ t = [])
     ∧ (∀ h e,
          env !! lit "ERIC_HOME" = Some h ->
          resolve_fault faults (Path_of_str h) = Some e ->
          r = Raise e ∧ t = [])).
Proof.
  destruct (home_of fs env faults eh) as [home|e] eqn:Hhome.
  - rewrite (__init___run rt fs env faults eh ld ev home Hhome).
    destruct (home_of_cases eh home Hhome) as [Hgiven Henv].
    assert (Hlog : (∀ a, ld = Some a -> arg_truthy a = true ->
                         log_of fs ld = Path_of a)
                   ∧ ((ld = None ∨ ld = Some (AsStr [])) ->
                      log_of fs ld = cwd fs)).
    { unfold log_of. destruct ld as [a|]; [destruct (arg_truthy a) eqn:Ha|];
        split; try (intros a' [= <-] Ha'; congruence); try (intros a' [=]);
        try done; by intros [[=]|[= ->]]. }
    destruct Hlog as [Hlog1 Hlog2].
    pose proof (print_lines_prints
                  (warning_lines env (detect_eric_version rt fs home) home
                     (version_key ev (detect_eric_version rt fs home))))
      as Hprints.
    intros H.
    assert (Hshape : Forall (fun e => is_print e = true) t
                     ∧ ∀ c, r = Ok c ->
                            eric_home c = home
                            ∧ log_dir c = log_of fs ld
                            ∧ _initialized c = false).
    { revert H Hprints.
      destruct (print_lines faults _) as [[u|e'] t'];
        repeat match goal with
               | |- context [if ?b then _ else _] => destruct b
               end;
        intros [= <- <-] Hprints;
        (split; [first [exact Hprints | constructor]|]);
        intros c [= <-]; by repeat split. }
    destruct Hshape as [Hp Hc]. split; [exact Hp|]. split.
    + intros c Hr. destruct (Hc c Hr) as (-> & -> & Hi).
      by repeat split.
    + intros Hno. destruct (Henv Hno) as (h & Hh & Hf & _).
      split; [congruence|]. intros h' e' Hh' Hf'. congruence.
  - unfold __init__. rewrite Hhome. unfold_run. intros [= <- <-].
    apply home_of_raises in Hhome as (Hno & Hcase).
    split; [constructor|]. split; [by intros c [=]|].
    intros _. destruct Hcase as [(-> & Henv)|(h & Hh & Hf)].
    + split; [done|]. intros h' e' Hh'. congruence.
    + split; [congruence|]. intros h' e' Hh' Hf'.
      split; [|done]. congruence.
Qed.


End ConstructorFacts.

(* ===================================================================== *)
(** * The test configuration *)
(* ===================================================================== *)

Section ConftestFacts.
Context (disk : Disk) (here : Path).

Lemma join_nonempty (sep : str) (l : list str) (x : str) :
  x ≠ [] -> join sep (l ++ [x]) ≠ [].
Proof.
  intros Hx. induction l as [|y l IH]; simpl; [done|].
  destruct (l ++ [x]) as [|z l'] eqn:Hl; [by destruct l|].
  intros H. apply app_eq_nil in H as [_ H].
  apply app_eq_nil in H as [_ H]. done.
Qed.

Lemma Path_str_nonempty (r : str) (ps : list str) (x : str) :
  x ≠ [] -> Path_str (mkPath r (ps ++ [x])) ≠ [].
Proof.
  intros Hx H. unfold Path_str in H. cbn [parts root] in H.
  pose proof (join_nonempty [slash] ps x Hx) as Hjoin.
  destruct (ps ++ [x]) as [|y l] eqn:Hl; [by destruct ps|].
  apply app_eq_nil in H as [_ H]. done.
Qed.

(** The candidate, when there is one, is two names below the parent of
    the repository. *)
Lemma candidate_shape (candidate : Path) :
  _candidate_eric_home disk here = Some (Some candidate) ->
  path_exists disk candidate = true
  ∧ ∃ r ps, candidate =
            mkPath r (ps ++ [lit "ERiC-41.6.2.0"; lit "Linux-x86_64"]).
Proof.
  unfold _candidate_eric_home.
  destruct (parents here 1) as [repo_root|]; [|discriminate].
  rewrite (library_path (parent repo_root) (lit "ERiC-41.6.2.0")
             (lit "Linux-x86_64") eq_refl eq_refl).
  change (parts (Path_of_str (lit "ERiC-41.6.2.0"))
          ++ parts (Path_of_str (lit "Linux-x86_64")))
    with [lit "ERiC-41.6.2.0"; lit "Linux-x86_64"].
  destruct (path_exists disk _) eqn:Hexists; [|discriminate].
  intros [= <-]. split; [done|]. eauto.
Qed.

(** X16: pytest_configure never changes an ERIC_HOME that is set to a
    non-empty value and never touches another variable; it sets ERIC_HOME
    only to an existing directory ERiC-41.6.2.0/Linux-x86_64 beside the
    repository, in which the version scan finds 41.6.2.0; and running it
    a second time changes nothing. *)
Theorem pytest_configure_respects_the_environment
    (env env' : gmap (list N) (list N)) :
  pytest_configure disk here env = Some env' ->
  (truthy (env !! lit "ERIC_HOME") = true -> env' = env)
  ∧ (∀ k, k ≠ lit "ERIC_HOME" -> env' !! k = env !! k)
  ∧ (env' = env
     ∨ ∃ candidate,
         env' = <[lit "ERIC_HOME" := Path_str candidate]> env
         ∧ path_exists disk candidate = true
         ∧ ∀ rt, detect_loop rt candidate = Some (lit "41.6.2.0"))
  ∧ pytest_configure disk here env' = Some env'.
Proof.
  unfold pytest_configure.
  destruct (truthy (env !! lit "ERIC_HOME")) eqn:Hset.
  - intros [= <-]. rewrite Hset. repeat split; auto.
  - destruct (_candidate_eric_home disk here) as [[candidate|]|] eqn:Hc;
      [| |discriminate]; intros [= <-].
    + destruct (candidate_shape candidate Hc) as (Hexists & r & ps & ->).
      split; [done|]. split; [|split].
      * intros k Hk. by rewrite lookup_insert_ne.
      * right. eexists. split; [done|]. split; [done|].
        intros rt. rewrite detect_loop_scan. simpl.
        by rewrite rev_app_distr.
      * rewrite lookup_insert_eq.
        change (ps ++ [lit "ERiC-41.6.2.0"; lit "Linux-x86_64"])
          with (ps ++ [lit "ERiC-41.6.2.0"] ++ [lit "Linux-x86_64"]).
        rewrite app_assoc.
        pose proof (Path_str_nonempty r (ps ++ [lit "ERiC-41.6.2.0"])
                      (lit "Linux-x86_64")) as Hne.
        destruct (Path_str _) as [|c s]; [by destruct Hne|done].
    + rewrite Hset. repeat split; auto.
Qed.

End ConftestFacts.

(* ===================================================================== *)
(** * The further properties at work *)
(* ===================================================================== *)

Import MoreExamples.

Lemma detected_version_comes_from_nearest_name_witness :
  detect_eric_version ascii_runtime plain_fs versioned_directory
  = Some (lit "41.6.2.0")
  ∧ is_version ascii_runtime (lit "41.6.2.0")
  ∧ lit "41.6.2.0" ≠ []
  ∧ ∃ near n far,
      rev (parts (resolve plain_fs versioned_directory)) = near ++ n :: far
      ∧ Forall (fun c => ¬ has_version ascii_runtime c) near
      ∧ search ascii_runtime pattern n = Some (lit "41.6.2.0")
      ∧ substring (lit "41.6.2.0") n.
Proof.
  assert (H : detect_eric_version ascii_runtime plain_fs versioned_directory
              = Some (lit "41.6.2.0")) by (vm_compute; reflexivity).
  split; [exact H|].
  exact (detected_version_comes_from_nearest_name ascii_runtime plain_fs
           versioned_directory (lit "41.6.2.0") H).
Defined.

Lemma search_is_leftmost_and_greedy_witness :
  search ascii_runtime pattern (lit "ERiC-141.6.2.05-rc1")
  = Some (lit "141.6.2.05")
  ∧ ∃ pre post,
      lit "ERiC-141.6.2.05-rc1" = pre ++ lit "141.6.2.05" ++ post
      ∧ (∀ pre1 pre2 u rest,
           pre = pre1 ++ pre2 -> pre2 ≠ [] -> is_version ascii_runtime u ->
           pre2 ++ lit "141.6.2.05" ++ post ≠ u ++ rest)
      ∧ match post with
        | c :: _ => is_digit ascii_runtime c = false
        | [] => True
        end.
Proof.
  assert (H : search ascii_runtime pattern (lit "ERiC-141.6.2.05-rc1")
              = Some (lit "141.6.2.05")) by (vm_compute; reflexivity).
  split; [exact H|].
  exact (search_is_leftmost_and_greedy ascii_runtime
           (lit "ERiC-141.6.2.05-rc1") (lit "141.6.2.05") H).
Defined.

Lemma registry_is_consistent_witness :
  is_supported_version (lit "41.6.2.0") = true
  ∧ ∃ config, VERSION_CONFIGS !! lit "41.6.2.0" = Some config
              ∧ eric_version config = lit "41.6.2.0".
Proof.
  assert (H : is_supported_version (lit "41.6.2.0") = true)
    by (vm_compute; reflexivity).
  split; [exact H|].
  exact (proj1 (proj2 (registry_is_consistent (lit "41.6.2.0"))) H).
Defined.

Lemma load_ericapi_outcomes_witness :
  load_ericapi home_env plain_fs no_faults api_only willing None = Ok 1%N
  ∧ (∃ home,
       eric_plugin_path home_env plain_fs no_faults None = Ok home
       ∧ exists_fault no_faults
           (mkPath (root home)
              (parts home ++ [lit "lib"; lit "libericapi.so"])) = None
       ∧ path_exists api_only
           (mkPath (root home)
              (parts home ++ [lit "lib"; lit "libericapi.so"])) = true
       ∧ CDLL willing
           (Path_str (mkPath (root home)
                        (parts home ++ [lit "lib"; lit "libericapi.so"])))
           (RTLD_GLOBAL willing) = inr 1%N)
  ∧ load_ericapi home_env plain_fs unsearchable api_only willing None
    = Raise OSError.
Proof.
  assert (H : load_ericapi home_env plain_fs no_faults api_only willing None
              = Ok 1%N)
    by (vm_compute; reflexivity).
  split; [exact H|]. split.
  - exact (proj1 (load_ericapi_outcomes home_env plain_fs no_faults api_only
                    willing None) 1%N H).
  - exact (proj1 (proj1 (proj2 (load_ericapi_outcomes home_env plain_fs
                                  unsearchable api_only willing None))
                    example_home eq_refl)
             OSError eq_refl).
Defined.

Lemma loaders_share_the_installation_root_witness :
  eric_plugin_path tilde_env plain_fs unknown_user None = Raise RuntimeError
  ∧ load_ericapi tilde_env plain_fs unknown_user full_disk willing None
    = Raise RuntimeError
  ∧ load_erictoolkit tilde_env plain_fs unknown_user full_disk willing None
    = Raise RuntimeError.
Proof.
  assert (H : eric_plugin_path tilde_env plain_fs unknown_user None
              = Raise RuntimeError)
    by (vm_compute; reflexivity).
  split; [exact H|].
  exact (proj2 (proj2 (loaders_share_the_installation_root
                         tilde_env plain_fs unknown_user full_disk willing
                         None))
           RuntimeError H).
Defined.

Lemma fresh_is_fresh (sc : Script) (b : bool) : buffers_fresh (fresh sc b).
Proof. intros i [x Hx]. simpl in Hx. by rewrite lookup_empty in Hx. Qed.

Lemma operations_leak_no_buffer_witness :
  buffers_fresh (fresh rejecting true)
  ∧ match validation rejecting with
    | (_, w', _) =>
        self w' = self (fresh rejecting true)
        ∧ buffers w' = buffers (fresh rejecting true)
        ∧ buffers_fresh w'
    end.
Proof.
  split; [apply fresh_is_fresh|].
  destruct (validation rejecting) as [[r w'] t] eqn:Hrun.
  destruct (operations_leak_no_buffer ascii_runtime eric_types
              (scripted rejecting) (lit "<Elster/>") (lit "UStVA_2020") None
              (AsStr []) None None (fresh rejecting true) r w' t
              (or_introl Hrun)) as [Hself Hstore].
  split; [exact Hself|]. exact (Hstore (fresh_is_fresh rejecting true)).
Defined.

Lemma initialize_sets_the_flag_on_success_witness :
  match initialize (scripted healthy) no_faults (fresh healthy false) with
  | (r, w', t) =>
      r = Ok tt ∧ _initialized (self w') = true
      ∧ ∃ rc text,
          t = [E_mkdir (log_dir (self (fresh healthy false)));
               E_init_eric (eric_home (self (fresh healthy false)))
                 (log_dir (self (fresh healthy false))) rc;
               E_get_error_text rc text]
  end
  ∧ initialize (scripted healthy) file_in_the_way (fresh healthy false)
    = (Raise OSError, fresh healthy false, []).
Proof.
  split.
  - destruct (initialize (scripted healthy) no_faults (fresh healthy false))
      as [[r w'] t] eqn:Hrun.
    destruct (initialize_sets_the_flag_on_success (scripted healthy)
                no_faults (fresh healthy false) r w' t Hrun)
      as (_ & _ & _ & Hinit).
    destruct (Hinit eq_refl) as (rc & text & Ht & Hcases).
    assert (Hr : r = Ok tt).
    { vm_compute in Hrun. by injection Hrun as <- _ _. }
    destruct Hcases as [(_ & _ & Hself)|(_ & Hraise & _)]; [|congruence].
    split; [exact Hr|]. split; [by rewrite Hself|]. by exists rc, text.
  - destruct (initialize (scripted healthy) file_in_the_way
                (fresh healthy false)) as [[r w'] t] eqn:Hrun.
    destruct (initialize_sets_the_flag_on_success (scripted healthy)
                file_in_the_way (fresh healthy false) r w' t Hrun)
      as (_ & _ & Hfault & _).
    destruct (Hfault OSError eq_refl) as (-> & -> & ->). reflexivity.
Defined.

Lemma with_client_brackets_the_body_witness :
  match with_client (scripted rejecting) no_faults
          (validate_xml ascii_runtime eric_types (scripted rejecting)
             (lit "<Elster/>") (lit "UStVA_2020") None)
          (fresh rejecting false) with
  | (r, w', t) =>
      r = Raise (EricError 610001002 (Some (lit "rejected")))
      ∧ count is_shutdown t = 1%nat
      ∧ ∃ rc0 text0,
          let entered :=
            [E_mkdir (log_dir (self (fresh rejecting false)));
             E_init_eric (eric_home (self (fresh rejecting false)))
               (log_dir (self (fresh rejecting false))) rc0;
             E_get_error_text rc0 text0] in
          (rc0 ≠ 0%Z ∧ r = Raise (EricError rc0 text0) ∧ t = entered
           ∧ self w' = self (fresh rejecting false))
          ∨ (rc0 = 0%Z
             ∧ ∃ w1 rb wb tb rc text,
                 _initialized (self w1) = true
                 ∧ validate_xml ascii_runtime eric_types (scripted rejecting)
                     (lit "<Elster/>") (lit "UStVA_2020") None w1
                   = (rb, wb, tb)
                 ∧ t = entered ++ tb
                         ++ [E_shutdown_eric rc; E_get_error_text rc text]
                 ∧ ((rc = 0%Z ∧ r = rb ∧ _initialized (self w') = false)
                    ∨ (rc ≠ 0%Z ∧ r = Raise (EricError rc text)
                       ∧ _initialized (self w') = true)))
  end
  ∧ with_client (scripted rejecting) file_in_the_way
      (validate_xml ascii_runtime eric_types (scripted rejecting)
         (lit "<Elster/>") (lit "UStVA_2020") None)
      (fresh rejecting false)
    = (Raise OSError, fresh rejecting false, []).
Proof.
  assert (Hkeep : ∀ w1 r1 w2 t1,
            validate_xml ascii_runtime eric_types (scripted rejecting)
              (lit "<Elster/>") (lit "UStVA_2020") None w1 = (r1, w2, t1) ->
            self w2 = self w1).
  { intros w1 r1 w2 t1 H.
    exact (operations_keep_self ascii_runtime eric_types
             (scripted rejecting) (lit "<Elster/>") (lit "UStVA_2020")
             None (AsStr []) None None w1 r1 w2 t1 (or_introl H)). }
  split.
  - destruct (with_client _ _ _ _) as [[r w'] t] eqn:Hrun.
    pose proof (proj2 (with_client_brackets_the_body (scripted rejecting)
                         no_faults
                         (validate_xml ascii_runtime eric_types
                            (scripted rejecting)
                            (lit "<Elster/>") (lit "UStVA_2020") None)
                         (fresh rejecting false) r w' t Hkeep Hrun) eq_refl)
      as Hbracket.
    vm_compute in Hrun. injection Hrun as <- _ <-.
    split; [reflexivity|]. split; [reflexivity|]. exact Hbracket.
  - destruct (with_client _ _ _ _) as [[r w'] t] eqn:Hrun.
    destruct (proj1 (with_client_brackets_the_body (scripted rejecting)
                       file_in_the_way
                       (validate_xml ascii_runtime eric_types
                          (scripted rejecting)
                          (lit "<Elster/>") (lit "UStVA_2020") None)
                       (fresh rejecting false) r w' t Hkeep Hrun)
                OSError eq_refl) as (-> & -> & ->).
    reflexivity.
Defined.

Lemma validate_xml_call_witness :
  match validate_xml ascii_runtime eric_types (scripted healthy)
          (lit "<Elster/>") (lit "UStVA_2020")
          (Some (AsStr (lit "/tmp/preview.pdf"))) (fresh healthy true) with
  | (_, _, t) =>
      ∃ call reply,
        In (E_EricBearbeiteVorgang call 0 1 reply) t
        ∧ call_crypto_params call = None
        ∧ ∃ name,
            utf8_encode (Path_str (Path_of (AsStr (lit "/tmp/preview.pdf"))))
            = Some name
            ∧ call_print_params call =
                Some {| vorschau := 1; ersteSeite := 0; duplexDruck := 0;
                        pdfName := name; fussText := None;
                        pdfCallbackBenutzerdaten := None |}
            ∧ call_flags call = c_uint32 (Z.lor 2 32)
  end.
Proof.
  destruct (validate_xml _ _ _ _ _ _ _) as [[r w'] t] eqn:Hrun.
  assert (Hin : ∃ call reply, In (E_EricBearbeiteVorgang call 0 1 reply) t).
  { vm_compute in Hrun. injection Hrun as <- <- <-.
    do 2 eexists. right. right. left. reflexivity. }
  destruct Hin as (call & reply & Hin). exists call, reply.
  destruct (validate_xml_call ascii_runtime eric_types (scripted healthy)
              (lit "<Elster/>") (lit "UStVA_2020")
              (Some (AsStr (lit "/tmp/preview.pdf"))) (fresh healthy true)
              r w' t call 0%N 1%N reply Hrun Hin)
    as (_ & _ & Hcp & _ & _ & Hpdf).
  split; [exact Hin|]. split; [exact Hcp|].
  exact (Hpdf (AsStr (lit "/tmp/preview.pdf")) eq_refl eq_refl).
Defined.

Lemma send_xml_call_witness :
  match submission healthy (Some 5%Z) with
  | (_, _, t) =>
      ∃ call reply,
        In (E_EricBearbeiteVorgang call 0 1 reply) t
        ∧ call_transfer call = transfer_cell eric_types (Some 5%Z)
        ∧ ∃ path secret handle info,
            In (E_EricGetHandleToCertificate path secret 0 handle info) t
            ∧ utf8_encode (Path_str (Path_of (AsStr (lit "/etc/eric/cert.pfx"))))
              = Some path
            ∧ (∃ bs, utf8_encode (lit "123456") = Some bs ∧ secret = Some bs)
            ∧ call_crypto_params call =
                Some {| zertifikatHandle := handle; pin := secret;
                        abrufCode := None |}
  end.
Proof.
  destruct (submission healthy (Some 5%Z)) as [[r w'] t] eqn:Hrun.
  assert (Hin : ∃ call reply, In (E_EricBearbeiteVorgang call 0 1 reply) t).
  { vm_compute in Hrun. injection Hrun as <- <- <-.
    do 2 eexists. do 4 right. left. reflexivity. }
  destruct Hin as (call & reply & Hin). exists call, reply.
  destruct (send_xml_call ascii_runtime eric_types (scripted healthy)
              (lit "<Elster/>") (lit "UStVA_2020")
              (AsStr (lit "/etc/eric/cert.pfx")) (Some (lit "123456")) None
              (Some 5%Z) (fresh healthy true) r w' t call 0%N 1%N reply
              Hrun Hin)
    as (_ & _ & Hcell & Hcert & _).
  split; [exact Hin|]. split; [exact Hcell|]. exact Hcert.
Defined.

(** A lone surrogate cannot be encoded. *)
Lemma unencodable_text_reaches_no_transaction_witness :
  utf8_encode [55296%N] = None
  ∧ match send_xml ascii_runtime eric_types (scripted healthy)
            [55296%N] (lit "UStVA_2020") (AsStr (lit "/etc/eric/cert.pfx"))
            (Some (lit "123456")) None None (fresh healthy true) with
    | (r, _, t) =>
        r = Raise UnicodeEncodeError
        ∧ count is_process t = 0%nat ∧ count is_create_buffer t = 0%nat
        ∧ count is_close_certificate t = 1%nat
    end.
Proof.
  assert (H : utf8_encode [55296%N] = None) by reflexivity.
  split; [exact H|].
  destruct (send_xml _ _ _ _ _ _ _ _ _ _) as [[r w'] t] eqn:Hrun.
  destruct (proj2 (unencodable_text_reaches_no_transaction
                     ascii_runtime eric_types (scripted healthy)
                     [55296%N] (lit "UStVA_2020") None
                     (AsStr (lit "/etc/eric/cert.pfx")) (Some (lit "123456"))
                     None (fresh healthy true) (or_introl H))
              r w' t Hrun) as (Hp & Hc & _ & _).
  vm_compute in Hrun. injection Hrun as <- _ <-.
  split; [reflexivity|]. split; [exact Hp|]. split; [exact Hc|]. reflexivity.
Defined.

Lemma constructor_outcomes_witness :
  match __init__ ascii_runtime plain_fs home_env no_faults None None None tt
  with
  | (r, _, t) =>
      Forall (fun e => is_print e = true) t
      ∧ ∃ c, r = Ok c ∧ _initialized c = false
             ∧ log_dir c = cwd plain_fs
             ∧ eric_home c = example_home
  end
  ∧ __init__ ascii_runtime plain_fs tilde_env unknown_user None None None tt
    = (Raise RuntimeError, tt, []).
Proof.
  split.
  - destruct (__init__ _ _ _ _ _ _ _ _) as [[r []] t] eqn:Hrun.
    destruct (constructor_outcomes ascii_runtime plain_fs home_env no_faults
                None None None r t Hrun) as (Hprints & Hok & _).
    split; [exact Hprints|].
    assert (Hr : ∃ c, r = Ok c).
    { vm_compute in Hrun. injection Hrun as <- _. by eexists. }
    destruct Hr as [c ->]. exists c. split; [reflexivity|].
    destruct (Hok c eq_refl) as (Hinit & _ & Hlog & _ & Hhome).
    split; [exact Hinit|]. split; [apply Hlog; by left|].
    destruct (Hhome (or_introl eq_refl)) as (h & Hh & _ & ->).
    vm_compute in Hh. injection Hh as <-. reflexivity.
  - destruct (__init__ _ _ _ _ _ _ _ _) as [[r []] t] eqn:Hrun.
    destruct (proj2 (proj2 (proj2 (constructor_outcomes ascii_runtime
                                     plain_fs tilde_env unknown_user
                                     None None None r t Hrun))
                       (or_introl eq_refl))
                (lit "~nobody/eric") RuntimeError eq_refl eq_refl)
      as (-> & ->).
    reflexivity.
Defined.


Lemma pytest_configure_respects_the_environment_witness :
  pytest_configure full_disk conftest_file ∅
  = Some {[ lit "ERIC_HOME" := lit "/home/dev/ERiC-41.6.2.0/Linux-x86_64" ]}
  ∧ pytest_configure full_disk conftest_file
      {[ lit "ERIC_HOME" := lit "/home/dev/ERiC-41.6.2.0/Linux-x86_64" ]}
    = Some {[ lit "ERIC_HOME" := lit "/home/dev/ERiC-41.6.2.0/Linux-x86_64" ]}.
Proof.
  assert (H : pytest_configure full_disk conftest_file ∅
              = Some {[ lit "ERIC_HOME" :=
                          lit "/home/dev/ERiC-41.6.2.0/Linux-x86_64" ]})
    by (vm_compute; reflexivity).
  split; [exact H|].
  exact (proj2 (proj2 (proj2 (pytest_configure_respects_the_environment
                                full_disk conftest_file ∅ _ H)))).
Defined.
